(** * A shallow embedding of utest (cc0::utest, utest.cpp / utest.h)

    The model follows the current version of the library (namespace
    [cc0::utest], the second half of utest.cpp and of utest.h).  The test
    registry is the function-local static [ContextList] returned by
    [Contexts()]; its intrusive singly linked lists are modelled as Rocq
    lists in the same order, and the cached pointer [last_used] as an
    optional index into the list of contexts (contexts are never removed,
    so an index identifies a [ContextItem] exactly as its address does).

    The rest of the program (whatever the test bodies and hooks read and
    write) is an abstract global state [State]; a [bool ( * )()] function
    pointer is a function of that state that returns its boolean result,
    the new state and the text it wrote.  Everything written to
    [std::cout] is recorded in an event trace; in addition, every call of
    a test, init or cleanup function pointer leaves a [Ran] marker in the
    trace, so that the trace records which functions were executed.  Test
    functions are assumed not to register further tests while [Run]
    iterates over the registry. *)

From Stdlib Require Import List String Ascii ZArith Lia Bool.
Import ListNotations.
Open Scope Z_scope.

(** ** Machine integers *)

Definition u32_wrap (z : Z) : Z := z mod 2 ^ 32.
Definition u64_wrap (z : Z) : Z := z mod 2 ^ 64.

(** ** Output *)

(** Which function pointer a [Ran] marker refers to: the [init] hook,
    the [k]-th test of the context (counting from 0) or the [cleanup]
    hook. *)
Inductive callee : Type :=
| CInit
| CTest (k : nat)
| CCleanup.

Inductive output : Type :=
| Print (s : string)
    (** text written to [std::cout] *)
| PrintPad (n : Z)
    (** the loop of [PrintTestName] that writes [n] dots *)
| PrintDiag (count : Z) (line : Z) (l op r : string)
    (** the message of a failing [CC0_UTEST_ASSERT]:
        ["\n    #" count " @" line ": <<" l " " op " " r ">> is false"] *).

(** The trace of a run: what is written, and a marker for each call of a
    test, init or cleanup function pointer. *)
Inductive event : Type :=
| Out (o : output)
| Ran (c : callee) (result : bool)
    (** the function pointer [c] was called and returned [result] *).

Definition print (s : string) : event := Out (Print s).

Definition endl : string := String (ascii_of_nat 10) EmptyString.
Definition backspace : string := String (ascii_of_nat 8) EmptyString.

Section Utest.

Context {State : Type}.

(** [bool ( *fn)()] *)
Definition fnptr : Type := State -> bool * State * list output.

(** ** Data model (utest.cpp) *)

(** [struct TestItem] *)
Record TestItem : Type := mkTestItem {
  test : fnptr;
  name : string;
  must_pass : bool
}.

(** [struct ContextItem]; its field [name] is called [context_name]
    here, since Rocq record fields share one name space. *)
Record ContextItem : Type := mkContextItem {
  context_name : string;
  init : option fnptr;
  cleanup : option fnptr;
  tests : list TestItem;
  align_chars : Z (* uint32_t *)
}.

(** [explicit ContextItem(const char *context_name)] *)
Definition new_context (nm : string) : ContextItem :=
  {| context_name := nm; init := None; cleanup := None;
     tests := []; align_chars := 0 |}.

(** [struct ContextList] *)
Record ContextList : Type := mkContextList {
  items : list ContextItem;
  last_used : option nat
}.

(** The static [ContextList] before any registration: an empty list and a
    zero-initialised (null) [last_used]. *)
Definition empty_contexts : ContextList :=
  {| items := []; last_used := None |}.

(** ** Lookup *)

(** The [while] loop of [FindContext]: the position of the first context
    whose name equals [nm]. *)
Fixpoint scan (cs : list ContextItem) (nm : string) (k : nat) : option nat :=
  match cs with
  | [] => None
  | c :: cs' => if String.eqb (context_name c) nm then Some k
                else scan cs' nm (S k)
  end.

(** Whether [last_used] is non-null and names [nm].  (A cached index
    outside the list would be a dangling pointer; it cannot arise, and is
    treated like a miss.) *)
Definition cache_hit (cl : ContextList) (nm : string) : bool :=
  match last_used cl with
  | Some i => match nth_error (items cl) i with
              | Some c => String.eqb (context_name c) nm
              | None => false
              end
  | None => false
  end.

(** [static ContextItem *FindContext(const char *name)] *)
Definition FindContext (cl : ContextList) (nm : string)
  : ContextList * option nat :=
  if cache_hit cl nm then (cl, last_used cl)
  else let r := scan (items cl) nm 0 in
       ({| items := items cl; last_used := r |}, r).

(** [static ContextItem *FindOrAddContext(const char *name)] *)
Definition FindOrAddContext (cl : ContextList) (nm : string)
  : ContextList * nat :=
  let '(cl1, r) := FindContext cl nm in
  match r with
  | Some i => (cl1, i)
  | None =>
      let n := List.length (items cl1) in
      ({| items := items cl1 ++ [new_context nm]; last_used := Some n |}, n)
  end.

(** Replace the [i]-th element of a list (the in-place update of the
    [ContextItem] a pointer refers to). *)
Fixpoint update_nth {A : Type} (i : nat) (f : A -> A) (l : list A) : list A :=
  match l, i with
  | [], _ => []
  | x :: l', O => f x :: l'
  | x :: l', S i' => x :: update_nth i' f l'
  end.

(** The new [align_chars] computed by [AddTest]:
    [c->align_chars > uint32_t(size) + 3 ? c->align_chars : uint32_t(size) + 3],
    where [uint32_t(size) + 3] is computed in [uint32_t]. *)
Definition new_align (align : Z) (nm : string) : Z :=
  let w := u32_wrap (u32_wrap (Z.of_nat (String.length nm)) + 3) in
  if w <? align then align else w.

(** [bool cc0::utest::AddTest(bool ( *fn)(), const char *name,
    const char *context, bool test_must_pass)]; it always returns true. *)
Definition AddTest (cl : ContextList) (fn : fnptr) (nm ctx : string)
    (test_must_pass : bool) : ContextList :=
  let '(cl1, i) := FindOrAddContext cl ctx in
  {| items := update_nth i
       (fun c => {| context_name := context_name c; init := init c;
                    cleanup := cleanup c;
                    tests := tests c ++ [mkTestItem fn nm test_must_pass];
                    align_chars := new_align (align_chars c) nm |})
       (items cl1);
     last_used := last_used cl1 |}.

(** One registration, as made by [CC0_UTEST_END]: the test function, the
    test name, the context name and the must-pass flag. *)
Record Registration : Type := mkRegistration {
  r_fn : fnptr;
  r_name : string;
  r_context : string;
  r_must_pass : bool
}.

(** The static initialisers of a program, run in order on the registry. *)
Definition register_all (cl : ContextList) (regs : list Registration)
  : ContextList :=
  fold_left (fun acc r => AddTest acc (r_fn r) (r_name r) (r_context r)
                                      (r_must_pass r)) regs cl.

(** ** Execution (utest.cpp) *)

(** The words [PrintTestName] prints: the name split at every ['_'],
    where a trailing empty piece (after a final ['_'], or of the empty
    name) is not printed, since the loop stops when [i] reaches
    [class_name.size()]. *)
Fixpoint split_underscore (s : string) : list string :=
  match s with
  | EmptyString => [EmptyString]
  | String c s' =>
      let rest := split_underscore s' in
      if Ascii.eqb c "_"%char then EmptyString :: rest
      else match rest with
           | w :: ws => String c w :: ws
           | [] => [String c EmptyString]
           end
  end.

Definition name_words (nm : string) : list string :=
  let ws := split_underscore nm in
  if String.eqb (last ws EmptyString) EmptyString then removelast ws else ws.

(** [static void PrintTestName(const std::string &class_name,
    uint32_t align_chars)].  The bound of the dot loop,
    [align_chars - class_name.size()], is computed in [size_t] (64 bits);
    [PrintPad] records that bound.  (When it is [2^32] or more the
    [uint32_t] loop counter wraps before reaching it and the loop does
    not end.) *)
Definition PrintTestName (nm : string) (align : Z) : list event :=
  [print "  "%string]
  ++ map (fun w => print (w ++ " ")%string) (name_words nm)
  ++ [print backspace;
      Out (PrintPad (u64_wrap (align - Z.of_nat (String.length nm))))].

(** The loop of [static bool RunTests(List<TestItem> &tests,
    uint32_t align_chars)], from the test at position [k] on, with the
    running [status]. *)
Fixpoint run_tests_from (k : nat) (ts : list TestItem) (align : Z)
    (status : bool) (s : State) : bool * State * list event :=
  match ts with
  | [] => (status, s, [])
  | t :: ts' =>
      let pre := PrintTestName (name t) align in
      let '(ok, s1, out) := test t s in
      let call := pre ++ map Out out ++ [Ran (CTest k) ok] in
      if ok then
        let '(st, s2, tr) := run_tests_from (S k) ts' align status s1 in
        (st, s2, call ++ [print "ok"%string; print endl] ++ tr)
      else if must_pass t then
        (false, s1, call ++ [print (endl ++ "    fail")%string; print endl;
                             print "  [abort]"%string; print endl])
      else
        let '(st, s2, tr) := run_tests_from (S k) ts' align false s1 in
        (st, s2, call ++ [print (endl ++ "    fail")%string; print endl] ++ tr)
  end.

(** [static bool RunTests(List<TestItem> &tests, uint32_t align_chars)] *)
Definition RunTests (ts : list TestItem) (align : Z) (s : State)
  : bool * State * list event :=
  run_tests_from 0 ts align true s.

(** [static bool RunContext(ContextItem *c)].  The condition
    [(c->init != nullptr && !c->init()) || !RunTests(...)] is evaluated
    with C++ short-circuit semantics: [RunTests] is only called when the
    left operand is false. *)
Definition RunContext (c : ContextItem) (s : State)
  : bool * State * list event :=
  let head := [print (context_name c); print endl] in
  let '(lhs, s1, tr1) :=
    match init c with
    | None => (false, s, [])
    | Some f => let '(b, s1, out) := f s in (negb b, s1, map Out out ++ [Ran CInit b])
    end in
  let '(cond, s2, tr2) :=
    if lhs then (true, s1, [])
    else let '(r, s2, tr) := RunTests (tests c) (align_chars c) s1 in
         (negb r, s2, tr) in
  let status := negb cond in
  let '(status', s3, tr3) :=
    match cleanup c with
    | None => (status, s2, [])
    | Some f => let '(b, s3, out) := f s2 in
                (if negb b then false else status, s3, map Out out ++ [Ran CCleanup b])
    end in
  (status', s3,
   head ++ tr1 ++ tr2 ++ tr3
   ++ [print ("  " ++ (if status' then "[ok]" else "[fail]"))%string; print endl]).

(** The loop of [int cc0::utest::Run( void )]. *)
Fixpoint run_contexts (cs : list ContextItem) (status : bool) (s : State)
  : bool * State * list event :=
  match cs with
  | [] => (status, s, [])
  | c :: cs' =>
      let '(b, s1, tr) := RunContext c s in
      let '(st, s2, tr') := run_contexts cs' (if negb b then false else status) s1 in
      (st, s2, tr ++ tr')
  end.

(** [int cc0::utest::Run( void )]: the exit code, the final state and the
    output. *)
Definition Run (cl : ContextList) (s : State) : Z * State * list event :=
  let '(st, s', tr) := run_contexts (items cl) true s in
  ((if st then 0 else 1), s', tr).

(** The loop of [int cc0::utest::Run(const char **contexts,
    uint32_t count)]; the registry is threaded through, since
    [FindContext] reassigns [last_used]. *)
Fixpoint run_named_from (names : list string) (cl : ContextList)
    (status : bool) (s : State) : bool * ContextList * State * list event :=
  match names with
  | [] => (status, cl, s, [])
  | nm :: names' =>
      let '(cl1, _) := FindContext cl nm in
      match match last_used cl1 with
            | Some i => nth_error (items cl1) i
            | None => None
            end with
      | Some c =>
          let '(b, s1, tr) := RunContext c s in
          let '(st, cl2, s2, tr') :=
            run_named_from names' cl1 (if negb b then false else status) s1 in
          (st, cl2, s2, tr ++ tr')
      | None =>
          let '(st, cl2, s2, tr') := run_named_from names' cl1 false s in
          (st, cl2, s2, [print (nm ++ "...not found")%string; print endl] ++ tr')
      end
  end.

(** [int cc0::utest::Run(const char **contexts, uint32_t count)], the
    [count] names given as a list. *)
Definition RunNamed (cl : ContextList) (names : list string) (s : State)
  : Z * ContextList * State * list event :=
  let '(st, cl', s', tr) := run_named_from names cl true s in
  ((if st then 0 else 1), cl', s', tr).

(** ** Test instances (utest.h, utest.cpp) *)

(** [class UTestBase]: its two private fields. *)
Record UTestBase : Type := mkUTestBase {
  m_assert_count : Z; (* uint64_t *)
  m_success : bool
}.

(** [UTestBase( void ) : m_assert_count(0), m_success(true)] *)
Definition UTestBase_new : UTestBase :=
  {| m_assert_count := 0; m_success := true |}.

(** [void IncrementAssertCount( void )] *)
Definition IncrementAssertCount (t : UTestBase) : UTestBase :=
  {| m_assert_count := u64_wrap (m_assert_count t + 1);
     m_success := m_success t |}.

(** [uint64_t AssertCount( void ) const] *)
Definition AssertCount (t : UTestBase) : Z := m_assert_count t.

(** [void Fail( void )] *)
Definition Fail (t : UTestBase) : UTestBase :=
  {| m_assert_count := m_assert_count t; m_success := false |}.

(** [bool Succeeded( void ) const] *)
Definition Succeeded (t : UTestBase) : bool := m_success t.

(** [bool Failed( void ) const] *)
Definition Failed (t : UTestBase) : bool := negb (m_success t).

(** The statements of a test body (the body of the constructor written
    between [CC0_UTEST_BEGIN] and [CC0_UTEST_END]):
    - [SAssert cond line l op r] is [CC0_UTEST_ASSERT(l, op, r)] written at
      line [line]: [cond] is the value of [(l) op (r)], [l] and [r] print the
      operands and [op] is the operator's text [#op];
    - [SIncrementAssertCount] and [SFail] are direct calls of the
      protected members [IncrementAssertCount()] and [Fail()], which the
      body of a class derived from [UTestBase] may make itself;
    - [SReturn] is a [return;] statement of the body;
    - [SCode f] is any other statement, which changes the state and may
      print. *)
Inductive stmt : Type :=
| SAssert (cond : State -> bool) (line : Z) (l : State -> string)
          (op : string) (r : State -> string)
| SIncrementAssertCount
| SFail
| SReturn
| SCode (f : State -> State * list output).

(** How a statement completes: normally, or by [return] from the body. *)
Inductive completion : Type :=
| Normal
| Returned.

(** One statement; [CC0_UTEST_ASSERT(l, op, r)] expands to
    [IncrementAssertCount(); if (!((l) op (r))) { Fail(); std::cout << ...;
    return; }]. *)
Definition exec_stmt (st : stmt) (s : State) (t : UTestBase)
  : completion * State * UTestBase * list output :=
  match st with
  | SAssert cond line l op r =>
      let t1 := IncrementAssertCount t in
      if negb (cond s) then
        let t2 := Fail t1 in
        (Returned, s, t2, [PrintDiag (AssertCount t2) line (l s) op (r s)])
      else (Normal, s, t1, [])
  | SIncrementAssertCount => (Normal, s, IncrementAssertCount t, [])
  | SFail => (Normal, s, Fail t, [])
  | SReturn => (Returned, s, t, [])
  | SCode f => let '(s', out) := f s in (Normal, s', t, out)
  end.

(** A statement list, stopping at the first [return]. *)
Fixpoint exec_body (b : list stmt) (s : State) (t : UTestBase)
  : completion * State * UTestBase * list output :=
  match b with
  | [] => (Normal, s, t, [])
  | st :: b' =>
      let '(k, s1, t1, tr1) := exec_stmt st s t in
      match k with
      | Returned => (Returned, s1, t1, tr1)
      | Normal =>
          let '(k2, s2, t2, tr2) := exec_body b' s1 t1 in
          (k2, s2, t2, tr1 ++ tr2)
      end
  end.

(** [static bool run_##unit_class( void ) { return unit_class().Succeeded(); }]
    as generated by [CC0_UTEST_END]: construct the test (running its
    body) and return [Succeeded()]. *)
Definition run_unit (body : list stmt) : fnptr :=
  fun s => let '(_, s', t, tr) := exec_body body s UTestBase_new in
           (Succeeded t, s', tr).

End Utest.

(** The operations a test class can apply to its [UTestBase] part: the
    protected and public members of [cc0::utest::UTestBase], and
    [OpCompare holds], one of the protected comparison helpers ([Equal],
    [NotEqual], [Less], [Greater], [LessOrEqual], [GreaterOrEqual]) of the
    older [utest::UTestBase], where [holds] is the value of the compared
    relation.  [m_assert_count] and [m_success] are private, so these are
    the only ways a test body reaches them. *)
Inductive base_op : Type :=
| OpIncrementAssertCount
| OpAssertCount
| OpFail
| OpSucceeded
| OpFailed
| OpCompare (holds : bool).

(** The effect of one operation on the fields (queries leave them as
    they are).  [Equal] and its siblings do [++m_assert_count; if (!holds)
    m_success = false;]. *)
Definition base_step (t : UTestBase) (op : base_op) : UTestBase :=
  match op with
  | OpIncrementAssertCount => IncrementAssertCount t
  | OpAssertCount => t
  | OpFail => Fail t
  | OpSucceeded => t
  | OpFailed => t
  | OpCompare holds =>
      let t1 := {| m_assert_count := u64_wrap (m_assert_count t + 1);
                   m_success := m_success t |} in
      if negb holds then {| m_assert_count := m_assert_count t1;
                            m_success := false |}
      else t1
  end.

Definition base_run (t : UTestBase) (ops : list base_op) : UTestBase :=
  fold_left base_step ops t.

(** Repeated lookups of one name, as a caller of [FindContext] makes
    them: the registry afterwards and the results in call order. *)
Fixpoint find_repeat {State : Type} (n : nat) (cl : @ContextList State)
    (nm : string) : @ContextList State * list (option nat) :=
  match n with
  | O => (cl, [])
  | S n' =>
      let '(cl1, r) := FindContext cl nm in
      let '(cl2, rs) := find_repeat n' cl1 nm in
      (cl2, r :: rs)
  end.

(** [Run] seen context by context: the contexts [cs] are run one after
    the other from state [s], the [i]-th returning [bs[i]] and writing
    [trs[i]], ending in state [s']. *)
Inductive contexts_run {State : Type}
  : list (@ContextItem State) -> State -> list bool -> State ->
    list (list event) -> Prop :=
| cr_nil s : contexts_run [] s [] s []
| cr_cons c cs s b s1 tr bs s2 trs :
    RunContext c s = (b, s1, tr) ->
    contexts_run cs s1 bs s2 trs ->
    contexts_run (c :: cs) s (b :: bs) s2 (tr :: trs).

(** [Run(contexts, count)] seen name by name: each name is looked up
    with [FindContext]; a missing one is reported and counts as a failure,
    a found one is run. *)
Inductive names_run {State : Type}
  : @ContextList State -> list string -> State -> list bool ->
    @ContextList State -> State -> list (list event) -> Prop :=
| nr_nil cl s : names_run cl [] s [] cl s []
| nr_missing cl nm names s cl1 bs cl' s' trs :
    FindContext cl nm = (cl1, None) ->
    names_run cl1 names s bs cl' s' trs ->
    names_run cl (nm :: names) s (false :: bs) cl' s'
      ([print (nm ++ "...not found")%string; print endl] :: trs)
| nr_found cl nm names s cl1 i c b s1 tr bs cl' s' trs :
    FindContext cl nm = (cl1, Some i) ->
    nth_error (items cl) i = Some c ->
    RunContext c s = (b, s1, tr) ->
    names_run cl1 names s1 bs cl' s' trs ->
    names_run cl (nm :: names) s (b :: bs) cl' s' (tr :: trs).

(** The distinct names of a list, in the order they are first seen
    (appended to [seen]). *)
Fixpoint first_seen_from (seen : list string) (l : list string) : list string :=
  match l with
  | [] => seen
  | x :: xs =>
      first_seen_from (if existsb (String.eqb x) seen then seen else seen ++ [x]) xs
  end.

Definition first_seen (l : list string) : list string := first_seen_from [] l.

(** The tests registrations [regs] put under the context name [nm], in
    registration order. *)
Definition units_of {State : Type} (regs : list (@Registration State))
    (nm : string) : list (@TestItem State) :=
  map (fun r => mkTestItem (r_fn r) (r_name r) (r_must_pass r))
      (filter (fun r => String.eqb (r_context r) nm) regs).

(** A name of [n] copies of the character [a]. *)
Fixpoint repeat_char (n : nat) (a : ascii) : string :=
  match n with
  | O => EmptyString
  | S n' => String a (repeat_char n' a)
  end.

(** A context whose [align_chars] is a [uint32_t] value leaving room for
    the names of its tests and 3 more columns. *)
Definition align_ok {State : Type} (c : @ContextItem State) : Prop :=
  0 <= align_chars c < 2 ^ 32 /\
  (forall t, In t (tests c) -> Z.of_nat (String.length (name t)) + 3 <= align_chars c).

(** What the registry holds after the registrations [done]. *)
Definition reg_inv {State : Type} (cl : @ContextList State)
    (done : list (@Registration State)) : Prop :=
  map context_name (items cl) = first_seen (map r_context done) /\
  (forall j c, nth_error (items cl) j = Some c ->
               tests c = units_of done (context_name c)).

(** The calls recorded in a trace, in order. *)
Definition calls (tr : list event) : list (callee * bool) :=
  flat_map (fun e => match e with Ran c b => [(c, b)] | Out _ => [] end) tr.

(** ** Text and counting helpers *)

(** The text of a trace: the strings written with [print], in order. *)
Fixpoint text_of (tr : list event) : string :=
  match tr with
  | [] => EmptyString
  | Out (Print s) :: tr' => (s ++ text_of tr')%string
  | _ :: tr' => text_of tr'
  end.

(** A name with every ['_'] replaced by a space. *)
Fixpoint underscores_to_spaces (s : string) : string :=
  match s with
  | EmptyString => EmptyString
  | String c s' =>
      String (if Ascii.eqb c "_"%char then " "%char else c) (underscores_to_spaces s')
  end.

(** The words [ws] as [PrintTestName] writes them, each followed by a
    space. *)
Definition words_text (ws : list string) : string :=
  fold_right (fun w acc => (w ++ " " ++ acc)%string) EmptyString ws.

(** Whether a name is non-empty and its last character is not ['_']. *)
Fixpoint ends_in_word (s : string) : bool :=
  match s with
  | EmptyString => false
  | String c EmptyString => negb (Ascii.eqb c "_"%char)
  | String _ s' => ends_in_word s'
  end.

(** The number of [CC0_UTEST_ASSERT] statements of a test body. *)
Fixpoint count_asserts {State : Type} (b : list (@stmt State)) : nat :=
  match b with
  | [] => O
  | SAssert _ _ _ _ _ :: b' => S (count_asserts b')
  | _ :: b' => count_asserts b'
  end.

(** Whether a statement calls [IncrementAssertCount()] or [Fail()] of
    [UTestBase] itself, outside a [CC0_UTEST_ASSERT]. *)
Definition direct_base_call {State : Type} (st : @stmt State) : bool :=
  match st with
  | SIncrementAssertCount | SFail => true
  | _ => false
  end.

Definition no_direct_calls {State : Type} (b : list (@stmt State)) : bool :=
  forallb (fun st => negb (direct_base_call st)) b.

(** The decimal digits [std::ostream] writes for an unsigned integer. *)
Fixpoint string_of_uint (d : Decimal.uint) : string :=
  match d with
  | Decimal.Nil => EmptyString
  | Decimal.D0 d' => String "0" (string_of_uint d')
  | Decimal.D1 d' => String "1" (string_of_uint d')
  | Decimal.D2 d' => String "2" (string_of_uint d')
  | Decimal.D3 d' => String "3" (string_of_uint d')
  | Decimal.D4 d' => String "4" (string_of_uint d')
  | Decimal.D5 d' => String "5" (string_of_uint d')
  | Decimal.D6 d' => String "6" (string_of_uint d')
  | Decimal.D7 d' => String "7" (string_of_uint d')
  | Decimal.D8 d' => String "8" (string_of_uint d')
  | Decimal.D9 d' => String "9" (string_of_uint d')
  end.

Definition decimal (z : Z) : string := string_of_uint (N.to_uint (Z.to_N z)).

(** The NUL character that ends a C string literal. *)
Definition nul : string := String (ascii_of_nat 0) EmptyString.

(** ** The older namespace [utest] (first half of utest.cpp and utest.h)

    The same registry as [cc0::utest], without test names and display
    widths; the tests are classes whose constructor prints their name and
    whose destructor prints the verdict, and the assertions go through the
    comparison helpers [Equal], [NotEqual], ... of [utest::UTestBase]. *)
Module Legacy.

Section Legacy.

Context {State : Type}.

(** [struct TestItem] *)
Record TestItem : Type := mkTestItem {
  test : @fnptr State;
  must_pass : bool
}.

(** [struct ContextItem] *)
Record ContextItem : Type := mkContextItem {
  context_name : string;
  init : option (@fnptr State);
  cleanup : option (@fnptr State);
  tests : list TestItem
}.

(** [explicit ContextItem(const char *context)] *)
Definition new_context (nm : string) : ContextItem :=
  {| context_name := nm; init := None; cleanup := None; tests := [] |}.

(** [struct ContextList] *)
Record ContextList : Type := mkContextList {
  items : list ContextItem;
  last_used : option nat
}.

Definition empty_contexts : ContextList :=
  {| items := []; last_used := None |}.

(** The [while] loop of [FindContext]. *)
Fixpoint scan (cs : list ContextItem) (nm : string) (k : nat) : option nat :=
  match cs with
  | [] => None
  | c :: cs' => if String.eqb (context_name c) nm then Some k
                else scan cs' nm (S k)
  end.

Definition cache_hit (cl : ContextList) (nm : string) : bool :=
  match last_used cl with
  | Some i => match nth_error (items cl) i with
              | Some c => String.eqb (context_name c) nm
              | None => false
              end
  | None => false
  end.

(** [ContextItem *FindContext(const char *name)] *)
Definition FindContext (cl : ContextList) (nm : string)
  : ContextList * option nat :=
  if cache_hit cl nm then (cl, last_used cl)
  else let r := scan (items cl) nm 0 in
       ({| items := items cl; last_used := r |}, r).

(** [ContextItem *FindOrAddContext(const char *name)] *)
Definition FindOrAddContext (cl : ContextList) (nm : string)
  : ContextList * nat :=
  let '(cl1, r) := FindContext cl nm in
  match r with
  | Some i => (cl1, i)
  | None =>
      let n := List.length (items cl1) in
      ({| items := items cl1 ++ [new_context nm]; last_used := Some n |}, n)
  end.

(** [bool utest::AddTest(bool ( *fn)(), const char *context,
    bool test_must_pass)]; it always returns true. *)
Definition AddTest (cl : ContextList) (fn : @fnptr State) (ctx : string)
    (test_must_pass : bool) : ContextList :=
  let '(cl1, i) := FindOrAddContext cl ctx in
  {| items := update_nth i
       (fun c => {| context_name := context_name c; init := init c;
                    cleanup := cleanup c;
                    tests := tests c ++ [mkTestItem fn test_must_pass] |})
       (items cl1);
     last_used := last_used cl1 |}.

(** The loop of [bool RunTests(List<TestItem> &tests)], from the test at
    position [k] on; it writes nothing itself. *)
Fixpoint run_tests_from (k : nat) (ts : list TestItem) (status : bool)
    (s : State) : bool * State * list event :=
  match ts with
  | [] => (status, s, [])
  | t :: ts' =>
      let '(ok, s1, out) := test t s in
      let call := map Out out ++ [Ran (CTest k) ok] in
      if ok then
        let '(st, s2, tr) := run_tests_from (S k) ts' status s1 in
        (st, s2, call ++ tr)
      else if must_pass t then (false, s1, call)
      else
        let '(st, s2, tr) := run_tests_from (S k) ts' false s1 in
        (st, s2, call ++ tr)
  end.

(** [bool RunTests(List<TestItem> &tests)] *)
Definition RunTests (ts : list TestItem) (s : State) : bool * State * list event :=
  run_tests_from 0 ts true s.

(** [bool RunContext(ContextItem *c)], with the same short-circuit [||]
    as in [cc0::utest]. *)
Definition RunContext (c : ContextItem) (s : State)
  : bool * State * list event :=
  let head := [print (context_name c ++ "...")%string; print endl] in
  let '(lhs, s1, tr1) :=
    match init c with
    | None => (false, s, [])
    | Some f => let '(b, s1, out) := f s in (negb b, s1, map Out out ++ [Ran CInit b])
    end in
  let '(cond, s2, tr2) :=
    if lhs then (true, s1, [])
    else let '(r, s2, tr) := RunTests (tests c) s1 in (negb r, s2, tr) in
  let status := negb cond in
  let '(status', s3, tr3) :=
    match cleanup c with
    | None => (status, s2, [])
    | Some f => let '(b, s3, out) := f s2 in
                (if negb b then false else status, s3, map Out out ++ [Ran CCleanup b])
    end in
  (status', s3,
   head ++ tr1 ++ tr2 ++ tr3
   ++ [print ("  " ++ (if status' then "succeeded" else "failed"))%string; print endl]).

(** The loop of [int utest::Run( void )]. *)
Fixpoint run_contexts (cs : list ContextItem) (status : bool) (s : State)
  : bool * State * list event :=
  match cs with
  | [] => (status, s, [])
  | c :: cs' =>
      let '(b, s1, tr) := RunContext c s in
      let '(st, s2, tr') := run_contexts cs' (if negb b then false else status) s1 in
      (st, s2, tr ++ tr')
  end.

(** [int utest::Run( void )] *)
Definition Run (cl : ContextList) (s : State) : Z * State * list event :=
  let '(st, s', tr) := run_contexts (items cl) true s in
  ((if st then 0 else 1), s', tr).

(** The loop of [int utest::Run(const char **contexts, uint32_t count)]:
    [if (Contexts().last_used != nullptr && !RunContext(...)) status = false;] *)
Fixpoint run_named_from (names : list string) (cl : ContextList)
    (status : bool) (s : State) : bool * ContextList * State * list event :=
  match names with
  | [] => (status, cl, s, [])
  | nm :: names' =>
      let '(cl1, _) := FindContext cl nm in
      match match last_used cl1 with
            | Some i => nth_error (items cl1) i
            | None => None
            end with
      | Some c =>
          let '(b, s1, tr) := RunContext c s in
          let '(st, cl2, s2, tr') :=
            run_named_from names' cl1 (if negb b then false else status) s1 in
          (st, cl2, s2, tr ++ tr')
      | None => run_named_from names' cl1 status s
      end
  end.

(** [int utest::Run(const char **contexts, uint32_t count)] *)
Definition RunNamed (cl : ContextList) (names : list string) (s : State)
  : Z * ContextList * State * list event :=
  let '(st, cl', s', tr) := run_named_from names cl true s in
  ((if st then 0 else 1), cl', s', tr).

(** [void PrintName(const std::string &class_name)]: the same loop over
    the ['_']-separated words as [PrintTestName], then ["\x8...\n"]. *)
Definition PrintName (class_name : string) : list output :=
  [Print "  "%string]
  ++ map (fun w => Print (w ++ " ")%string) (name_words class_name)
  ++ [Print (backspace ++ "..." ++ endl)%string].

(** [utest::UTestBase::UTestBase(const char *class_name, uint64_t str_len)]:
    [m_assert_count(0), m_success(true)], then
    [PrintName(std::string(class_name, str_len))], which takes the first
    [str_len] characters of the array [class_name]. *)
Definition UTestBase_ctor (class_name : string) (str_len : Z)
  : UTestBase * list output :=
  (UTestBase_new, PrintName (substring 0 (Z.to_nat str_len) class_name)).

(** [utest::UTestBase::~UTestBase( void )] *)
Definition UTestBase_dtor (t : UTestBase) : list output :=
  [Print ("    " ++ (if m_success t then "succeeded" else "failed"))%string;
   Print endl].

(** The comparison helpers of [utest::UTestBase]. *)
Inductive compare_kind : Type :=
| Equal
| NotEqual
| Less
| Greater
| LessOrEqual
| GreaterOrEqual.

(** The operator each helper prints in its message. *)
Definition op_text (k : compare_kind) : string :=
  match k with
  | Equal => "=="
  | NotEqual => "!="
  | Less => "<"
  | Greater => ">"
  | LessOrEqual => "<="
  | GreaterOrEqual => ">="
  end.

(** [template <...> bool k(const T1 &l, const T2 &r)] for a helper [k]:
    [fails] is the value of the condition it tests ([l != r] for [Equal],
    [l == r] for [NotEqual], [l >= r] for [Less], [l <= r] for
    [Greater], [l > r] for [LessOrEqual], [l < r] for
    [GreaterOrEqual]); [l] and [r] are the printed operands.  The helper
    returns [m_success], not the outcome of its own comparison. *)
Definition Compare (k : compare_kind) (fails : bool) (l r : string)
    (t : UTestBase) : bool * UTestBase * list output :=
  let t1 := {| m_assert_count := u64_wrap (m_assert_count t + 1);
               m_success := m_success t |} in
  if fails then
    let t2 := {| m_assert_count := m_assert_count t1; m_success := false |} in
    (m_success t2, t2,
     [Print ("    >" ++ decimal (m_assert_count t2) ++ ": " ++ l ++ " " ++ op_text k
             ++ " " ++ r ++ " is false" ++ endl)%string])
  else (m_success t1, t1, []).

(** The statements of a test body of the older library:
    - [LCompare k fails l r] is a call [k(l, r);] whose result is not used;
    - [LAssertCompare k fails l r] is [UTEST_ASSERT(k(l, r))];
    - [LAssert e] is [UTEST_ASSERT(e)] for an expression [e] that calls no
      helper;
    - [LCode f] is any other statement. *)
Inductive lstmt : Type :=
| LCompare (k : compare_kind) (fails : State -> bool) (l r : State -> string)
| LAssertCompare (k : compare_kind) (fails : State -> bool) (l r : State -> string)
| LAssert (e : State -> bool)
| LCode (f : State -> State * list output).

(** One statement; [UTEST_ASSERT(test)] expands to
    [if (!(test)) { return; }]. *)
Definition exec_lstmt (st : lstmt) (s : State) (t : UTestBase)
  : completion * State * UTestBase * list output :=
  match st with
  | LCompare k fails l r =>
      let '(_, t', out) := Compare k (fails s) (l s) (r s) t in (Normal, s, t', out)
  | LAssertCompare k fails l r =>
      let '(b, t', out) := Compare k (fails s) (l s) (r s) t in
      (if negb b then Returned else Normal, s, t', out)
  | LAssert e => (if negb (e s) then Returned else Normal, s, t, [])
  | LCode f => let '(s', out) := f s in (Normal, s', t, out)
  end.

(** A statement list, stopping at the first [return]. *)
Fixpoint exec_lbody (b : list lstmt) (s : State) (t : UTestBase)
  : completion * State * UTestBase * list output :=
  match b with
  | [] => (Normal, s, t, [])
  | st :: b' =>
      let '(k, s1, t1, tr1) := exec_lstmt st s t in
      match k with
      | Returned => (Returned, s1, t1, tr1)
      | Normal =>
          let '(k2, s2, t2, tr2) := exec_lbody b' s1 t1 in
          (k2, s2, t2, tr1 ++ tr2)
      end
  end.

(** [bool run_##unit_name( void ) { return unit_name().Succeeded(); }] as
    generated by [UTEST_END] for a class [unit_name] begun with
    [UTEST_BEGIN(unit_name)], whose constructor calls
    [UTestBase(#unit_name, sizeof(#unit_name))]: the array [#unit_name]
    holds the name followed by its terminating NUL, and [sizeof] counts
    both.  The temporary is destroyed after [Succeeded()] is read. *)
Definition run_unit (unit_name : string) (body : list lstmt) : @fnptr State :=
  fun s =>
    let '(t0, hdr) := UTestBase_ctor (unit_name ++ nul)%string
                                     (Z.of_nat (String.length unit_name) + 1) in
    let '(_, s', t, out) := exec_lbody body s t0 in
    (Succeeded t, s', hdr ++ out ++ UTestBase_dtor t).

End Legacy.

End Legacy.

(** ** Sample programs *)

(** A test program whose state counts the test calls. *)
Definition pass_fn : @fnptr nat := fun n => (true, S n, []).
Definition fail_fn : @fnptr nat := fun n => (false, S n, []).

(** The scenario of the spec: [u1] passes, [u2] fails and must pass, [u3]
    passes, all in context ["C"]. *)
Definition sample_regs : list (@Registration nat) :=
  [mkRegistration pass_fn "u1" "C" false;
   mkRegistration fail_fn "u2" "C" true;
   mkRegistration pass_fn "u3" "C" false].

(** Registrations from three source files, interleaved: the tests of
    ["a.cpp"] are registered before and after those of ["b.cpp"], and
    ["c.cpp"] comes last. *)
Definition interleaved_regs : list (@Registration nat) :=
  [mkRegistration pass_fn "first" "a.cpp" false;
   mkRegistration fail_fn "second" "b.cpp" true;
   mkRegistration pass_fn "third" "a.cpp" false;
   mkRegistration fail_fn "fourth" "c.cpp" false;
   mkRegistration pass_fn "fifth" "b.cpp" false].

(** * Properties *)

Section Lookup.

Context {State : Type}.
Implicit Types (cl : @ContextList State) (cs : list (@ContextItem State)).

Lemma scan_some cs nm k j :
  scan cs nm k = Some j ->
  (k <= j)%nat /\
  exists c, nth_error cs (j - k) = Some c /\ context_name c = nm.
Proof.
  revert k; induction cs as [|c cs IH]; intros k H; simpl in H.
  - discriminate.
  - destruct (String.eqb_spec (context_name c) nm) as [E|E].
    + injection H as <-. split; [lia|]. exists c.
      rewrite Nat.sub_diag. auto.
    + destruct (IH (S k) H) as [Hle [c' [Hn Hc]]]. split; [lia|].
      exists c'. replace (j - k)%nat with (S (j - S k)) by lia. auto.
Qed.

Lemma scan_none cs nm k :
  scan cs nm k = None <-> (forall c, In c cs -> context_name c <> nm).
Proof.
  revert k; induction cs as [|c cs IH]; intros k; simpl.
  - split; [intros _ c []|intros _; reflexivity].
  - destruct (String.eqb_spec (context_name c) nm) as [E|E].
    + split; [discriminate|]. intros H. exfalso. exact (H c (or_introl eq_refl) E).
    + rewrite IH. split.
      * intros H c' [<-|Hin]; auto.
      * intros H c' Hin. apply H. auto.
Qed.

Lemma FindContext_items cl nm :
  items (fst (FindContext cl nm)) = items cl.
Proof. unfold FindContext. destruct (cache_hit cl nm); reflexivity. Qed.

Lemma FindContext_last_used cl nm :
  last_used (fst (FindContext cl nm)) = snd (FindContext cl nm).
Proof. unfold FindContext. destruct (cache_hit cl nm); reflexivity. Qed.

(** A found index names a context called [nm]. *)
Lemma FindContext_some cl nm i :
  snd (FindContext cl nm) = Some i ->
  exists c, nth_error (items cl) i = Some c /\ context_name c = nm.
Proof.
  unfold FindContext, cache_hit.
  destruct (last_used cl) as [j|] eqn:Hl.
  - destruct (nth_error (items cl) j) as [c|] eqn:Hn.
    + destruct (String.eqb_spec (context_name c) nm) as [E|E]; simpl.
      * intros H; injection H as <-. eauto.
      * intros H. destruct (scan_some _ _ _ _ H) as [_ [c' [Hc' E']]].
        rewrite Nat.sub_0_r in Hc'. eauto.
    + simpl. intros H. destruct (scan_some _ _ _ _ H) as [_ [c' [Hc' E']]].
      rewrite Nat.sub_0_r in Hc'. eauto.
  - simpl. intros H. destruct (scan_some _ _ _ _ H) as [_ [c' [Hc' E']]].
    rewrite Nat.sub_0_r in Hc'. eauto.
Qed.

(** A lookup fails exactly when no context has the name. *)
Lemma FindContext_none cl nm :
  snd (FindContext cl nm) = None <->
  (forall c, In c (items cl) -> context_name c <> nm).
Proof.
  split.
  - intros H c Hin Hc.
    unfold FindContext, cache_hit in H.
    destruct (last_used cl) as [j|].
    + destruct (nth_error (items cl) j) as [c'|].
      * destruct (String.eqb (context_name c') nm); simpl in H;
          [discriminate|].
        exact (proj1 (scan_none _ _ _) H c Hin Hc).
      * exact (proj1 (scan_none _ _ _) H c Hin Hc).
    + exact (proj1 (scan_none _ _ _) H c Hin Hc).
  - intros H. destruct (snd (FindContext cl nm)) as [i|] eqn:E; [|reflexivity].
    destruct (FindContext_some _ _ _ E) as [c [Hn Hc]].
    exfalso. exact (H c (nth_error_In _ _ Hn) Hc).
Qed.

(** A second lookup of the same name finds the cache filled by the first
    and changes nothing. *)
Lemma FindContext_again cl nm :
  FindContext (fst (FindContext cl nm)) nm = FindContext cl nm.
Proof.
  destruct (snd (FindContext cl nm)) as [i|] eqn:E.
  - destruct (FindContext_some _ _ _ E) as [c [Hn Hc]].
    destruct (FindContext cl nm) as [cl1 r] eqn:F. simpl in E |- *. subst r.
    assert (Hi : items cl1 = items cl)
      by (change cl1 with (fst (cl1, Some i)); rewrite <- F;
          apply FindContext_items).
    assert (Hl : last_used cl1 = Some i)
      by (change cl1 with (fst (cl1, Some i)); rewrite <- F;
          rewrite FindContext_last_used, F; reflexivity).
    unfold FindContext at 1, cache_hit.
    rewrite Hl, Hi, Hn, Hc, String.eqb_refl. reflexivity.
  - destruct (FindContext cl nm) as [cl1 r] eqn:F. simpl in E |- *. subst r.
    unfold FindContext in F.
    destruct (cache_hit cl nm) eqn:Hh.
    + injection F as <- Hl. unfold FindContext. rewrite Hh, Hl. reflexivity.
    + injection F as <- Hs. unfold FindContext, cache_hit. simpl.
      rewrite Hs. reflexivity.
Qed.

End Lookup.

Section Execution.

Context {State : Type}.
Implicit Types (cl : @ContextList State) (c : @ContextItem State)
  (ts : list (@TestItem State)) (s : State).

Lemma Ran_map_Out cb b (out : list output) : ~ In (Ran cb b) (map Out out).
Proof. rewrite in_map_iff. intros [o [H _]]. discriminate. Qed.

Lemma Ran_PrintTestName cb b nm align : ~ In (Ran cb b) (PrintTestName nm align).
Proof.
  unfold PrintTestName. rewrite !in_app_iff, in_map_iff. simpl.
  intros [[|[]]|[[w [H _]]|[|[|[]]]]]; discriminate.
Qed.

Ltac no_ran :=
  repeat match goal with
  | H : In _ (_ ++ _) |- _ => apply in_app_or in H; destruct H as [H|H]
  | H : In (Ran _ _) (map _ _) |- _ =>
      let x := fresh "x" in
      apply in_map_iff in H; destruct H as [x [H _]]; discriminate
  | H : In (Ran _ _) (PrintTestName _ _) |- _ =>
      exact (False_rect _ (Ran_PrintTestName _ _ _ _ H))
  | H : In (Ran _ _) (_ :: _) |- _ => destruct H as [H|H]; [try discriminate|]
  | H : In _ [] |- _ => destruct H
  end.

(** The tests of [RunTests] are called in positions [k0], [k0+1], ... *)
Lemma run_tests_from_index ts : forall k0 align status s,
  match run_tests_from k0 ts align status s with
  | (_, _, tr) => forall j b, In (Ran (CTest j) b) tr -> (k0 <= j)%nat
  end.
Proof.
  induction ts as [|t ts IH]; intros k0 align status s; simpl.
  - intros j b [].
  - destruct (test t s) as [[ok s1] out].
    destruct ok; [|destruct (must_pass t)].
    + specialize (IH (S k0) align status s1).
      destruct (run_tests_from (S k0) ts align status s1) as [[st s2] tr].
      intros j b H. no_ran.
      * injection H; intros; subst. lia.
      * specialize (IH j b H). lia.
    + intros j b H. no_ran. injection H; intros; subst. lia.
    + specialize (IH (S k0) align false s1).
      destruct (run_tests_from (S k0) ts align false s1) as [[st s2] tr].
      intros j b H. no_ran.
      * injection H; intros; subst. lia.
      * specialize (IH j b H). lia.
Qed.

(** When the test in position [k] has [must_pass] set and fails, no later
    test is called and [RunTests] returns false. *)
Lemma run_tests_from_abort ts : forall k0 align status s,
  match run_tests_from k0 ts align status s with
  | (st, _, tr) =>
      forall k t, nth_error ts (k - k0) = Some t -> (k0 <= k)%nat ->
      must_pass t = true -> In (Ran (CTest k) false) tr ->
      st = false /\ (forall j b, In (Ran (CTest j) b) tr -> (j <= k)%nat)
  end.
Proof.
  induction ts as [|t ts IH]; intros k0 align status s; simpl.
  - intros k t _ _ _ [].
  - destruct (test t s) as [[ok s1] out] eqn:Ht.
    destruct ok; [|destruct (must_pass t) eqn:Hm].
    + pose proof (run_tests_from_index ts (S k0) align status s1) as Hix.
      specialize (IH (S k0) align status s1).
      destruct (run_tests_from (S k0) ts align status s1) as [[st s2] tr].
      intros k t' Hn Hle Hm' H. no_ran.
      assert (Hk : (S k0 <= k)%nat) by exact (Hix _ _ H).
      replace (k - k0)%nat with (S (k - S k0)) in Hn by lia. simpl in Hn.
      destruct (IH k t' Hn Hk Hm' H) as [Hst Hall]. split; [exact Hst|].
      intros j b Hj. no_ran.
      * injection Hj; intros; subst. lia.
      * exact (Hall j b Hj).
    + intros k t' Hn Hle Hm' H. no_ran. injection H; intros; subst.
      split; [reflexivity|]. intros j b Hj. no_ran. injection Hj; intros; subst. lia.
    + pose proof (run_tests_from_index ts (S k0) align false s1) as Hix.
      specialize (IH (S k0) align false s1).
      destruct (run_tests_from (S k0) ts align false s1) as [[st s2] tr].
      intros k t' Hn Hle Hm' H. no_ran.
      * injection H; intros; subst. rewrite Nat.sub_diag in Hn. simpl in Hn.
        injection Hn; intros; subst. congruence.
      * assert (Hk : (S k0 <= k)%nat) by exact (Hix _ _ H).
        replace (k - k0)%nat with (S (k - S k0)) in Hn by lia. simpl in Hn.
        destruct (IH k t' Hn Hk Hm' H) as [Hst Hall]. split; [exact Hst|].
        intros j b Hj. no_ran.
        -- injection Hj; intros; subst. lia.
        -- exact (Hall j b Hj).
Qed.

Ltac red_ctx := cbn beta iota zeta delta [negb].
Ltac red_ctx_in H := cbn beta iota zeta delta [negb] in H.

Ltac finish_must_pass HA :=
  let k := fresh "k" in let t := fresh "t" in
  let Hn := fresh "Hn" in let Hm := fresh "Hm" in let Hin := fresh "Hin" in
  intros k t Hn Hm Hin; no_ran;
  let Hr := fresh "Hr" in let Hall := fresh "Hall" in
  destruct (HA k t ltac:(rewrite Nat.sub_0_r; exact Hn) (Nat.le_0_l _) Hm Hin)
    as [Hr Hall]; subst;
  split;
  [ repeat match goal with b : bool |- _ => destruct b end; reflexivity
  | let j := fresh "j" in let b' := fresh "b'" in let Hj := fresh "Hj" in
    intros j b' Hj; no_ran; eauto ].

(** Inside [RunContext], a must-pass failure of the test in position [k]
    makes the context fail, and no test after [k] is called. *)
Lemma RunContext_must_pass c s :
  match RunContext c s with
  | (b, _, tr) =>
      forall k t, nth_error (tests c) k = Some t -> must_pass t = true ->
      In (Ran (CTest k) false) tr ->
      b = false /\ (forall j b', In (Ran (CTest j) b') tr -> (j <= k)%nat)
  end.
Proof.
  unfold RunContext, RunTests.
  destruct (init c) as [f|]; [destruct (f s) as [[bi s1] out]; destruct bi|].
  - pose proof (run_tests_from_abort (tests c) 0 (align_chars c) true s1) as HA.
    destruct (run_tests_from 0 (tests c) (align_chars c) true s1) as [[r s2] tr2].
    destruct (cleanup c) as [g|]; red_ctx;
      [destruct (g s2) as [[bc s3] out3]; red_ctx|]; finish_must_pass HA.
  - destruct (cleanup c) as [g|]; red_ctx;
      [destruct (g s1) as [[bc s3] out3]; red_ctx|]; intros k t Hn Hm Hin; no_ran.
  - pose proof (run_tests_from_abort (tests c) 0 (align_chars c) true s) as HA.
    destruct (run_tests_from 0 (tests c) (align_chars c) true s) as [[r s2] tr2].
    destruct (cleanup c) as [g|]; red_ctx;
      [destruct (g s2) as [[bc s3] out3]; red_ctx|]; finish_must_pass HA.
Qed.

(** [RunContext] always calls an existing cleanup hook. *)
Lemma RunContext_cleanup c s :
  match RunContext c s with
  | (_, _, tr) => cleanup c <> None -> exists b, In (Ran CCleanup b) tr
  end.
Proof.
  unfold RunContext, RunTests.
  destruct (init c) as [f|]; [destruct (f s) as [[bi s1] out]; destruct bi|]; red_ctx;
    [destruct (run_tests_from 0 (tests c) (align_chars c) true s1) as [[r s2] tr2]
    | | destruct (run_tests_from 0 (tests c) (align_chars c) true s) as [[r s2] tr2]];
    red_ctx.
  all: destruct (cleanup c) as [g|]; red_ctx;
         [|intros H; exfalso; apply H; reflexivity].
  - destruct (g s2) as [[bc s3] out3]; red_ctx.
    intros _; exists bc; rewrite !in_app_iff; simpl; tauto.
  - destruct (g s1) as [[bc s3] out3]; red_ctx.
    intros _; exists bc; rewrite !in_app_iff; simpl; tauto.
  - destruct (g s2) as [[bc s3] out3]; red_ctx.
    intros _; exists bc; rewrite !in_app_iff; simpl; tauto.
Qed.

Lemma run_contexts_decomp cs : forall status s,
  match run_contexts cs status s with
  | (st, s', tr) =>
      exists bs trs, contexts_run cs s bs s' trs /\ tr = List.concat trs /\
                     st = status && forallb (fun b => b) bs
  end.
Proof.
  induction cs as [|c cs IH]; intros status s; simpl.
  - exists [], []. split; [constructor|]. split; [reflexivity|].
    rewrite andb_true_r. reflexivity.
  - destruct (RunContext c s) as [[b s1] tr] eqn:E.
    specialize (IH (if negb b then false else status) s1).
    destruct (run_contexts cs (if negb b then false else status) s1) as [[st s2] tr'].
    destruct IH as [bs [trs [H1 [H2 H3]]]].
    exists (b :: bs), (tr :: trs). split; [econstructor; eauto|].
    split; [simpl; congruence|]. subst. destruct b, status; reflexivity.
Qed.

Lemma contexts_run_length cs s bs s' trs :
  contexts_run cs s bs s' trs -> List.length trs = List.length cs /\ List.length bs = List.length cs.
Proof. induction 1; simpl; [auto|]. destruct IHcontexts_run; auto. Qed.

Lemma contexts_run_nth cs s bs s' trs :
  contexts_run cs s bs s' trs ->
  forall i c trc, nth_error cs i = Some c -> nth_error trs i = Some trc ->
  exists si b si', RunContext c si = (b, si', trc) /\ nth_error bs i = Some b.
Proof.
  induction 1 as [|c0 cs s b s1 tr bs s2 trs E H IH];
    intros [|i] c trc Hc Htr; simpl in *; try discriminate.
  - injection Hc; injection Htr; intros; subst. eauto.
  - exact (IH i c trc Hc Htr).
Qed.

Lemma forallb_nth_false (bs : list bool) i :
  nth_error bs i = Some false -> forallb (fun b => b) bs = false.
Proof.
  intros H. apply nth_error_In in H.
  destruct (forallb (fun b => b) bs) eqn:E; [|reflexivity].
  rewrite forallb_forall in E. specialize (E false H). discriminate.
Qed.

(** Claim C5. [Run()] calls [RunContext] on every registered context,
    in the order of the registry, carrying on after failing ones; the
    output is the contexts' outputs in that order, and the exit code is
    0 when every context succeeded and 1 otherwise. *)
Theorem Run_every_context_in_order cl s :
  match Run cl s with
  | (code, s', tr) =>
      exists bs trs, contexts_run (items cl) s bs s' trs /\ tr = List.concat trs /\
                     code = (if forallb (fun b => b) bs then 0 else 1)
  end.
Proof.
  unfold Run. pose proof (run_contexts_decomp (items cl) true s) as H.
  destruct (run_contexts (items cl) true s) as [[st s'] tr].
  destruct H as [bs [trs [H1 [H2 H3]]]]. exists bs, trs.
  split; [exact H1|]. split; [exact H2|]. rewrite H3. reflexivity.
Qed.

(** Claim C3. Under [Run()], when the test in position [k] of a context
    has [must_pass] set and returns false, no later test of that context
    is called, the context's cleanup hook (if any) is still called, every
    other context is still run, and the exit code is 1. *)
Theorem Run_must_pass_failure cl s :
  match Run cl s with
  | (code, s', tr) =>
      exists bs trs,
        contexts_run (items cl) s bs s' trs /\ tr = List.concat trs /\
        List.length trs = List.length (items cl) /\
        forall i c trc k t,
          nth_error (items cl) i = Some c -> nth_error trs i = Some trc ->
          nth_error (tests c) k = Some t -> must_pass t = true ->
          In (Ran (CTest k) false) trc ->
          (forall j b, In (Ran (CTest j) b) trc -> (j <= k)%nat) /\
          (cleanup c <> None -> exists b, In (Ran CCleanup b) trc) /\
          code = 1
  end.
Proof.
  unfold Run. pose proof (run_contexts_decomp (items cl) true s) as H.
  destruct (run_contexts (items cl) true s) as [[st s'] tr].
  destruct H as [bs [trs [H1 [H2 H3]]]]. exists bs, trs.
  split; [exact H1|]. split; [exact H2|].
  split; [exact (proj1 (contexts_run_length _ _ _ _ _ H1))|].
  intros i c trc k t Hc Htr Hk Hm Hin.
  destruct (contexts_run_nth _ _ _ _ _ H1 i c trc Hc Htr) as [si [b [si' [E Hb]]]].
  pose proof (RunContext_must_pass c si) as HM. pose proof (RunContext_cleanup c si) as HC.
  rewrite E in HM, HC.
  destruct (HM k t Hk Hm Hin) as [-> Hall].
  split; [exact Hall|]. split; [exact HC|].
  rewrite H3, (forallb_nth_false _ _ Hb). reflexivity.
Qed.

(** Claim C10. With no registered context, [Run()] returns 0 and writes
    nothing; with no names, [Run(contexts, 0)] returns 0, writes nothing
    and leaves the registry as it is. *)
Theorem Run_nothing_to_run :
  (forall lu s, Run {| items := []; last_used := lu |} s = (0, s, [])) /\
  (forall cl s, RunNamed cl [] s = (0, cl, s, [])).
Proof. split; reflexivity. Qed.

Lemma run_named_decomp names : forall cl status s,
  match run_named_from names cl status s with
  | (st, cl', s', tr) =>
      exists bs trs, names_run cl names s bs cl' s' trs /\ tr = List.concat trs /\
                     st = status && forallb (fun b => b) bs
  end.
Proof.
  induction names as [|nm names IH]; intros cl status s; simpl.
  - exists [], []. split; [constructor|]. split; [reflexivity|].
    rewrite andb_true_r. reflexivity.
  - pose proof (FindContext_items cl nm) as Hit.
    pose proof (FindContext_last_used cl nm) as Hlu.
    pose proof (FindContext_some cl nm) as Hso.
    destruct (FindContext cl nm) as [cl1 r] eqn:F. simpl in Hit, Hlu, Hso.
    rewrite Hlu. destruct r as [i|].
    + destruct (Hso i eq_refl) as [c [Hn Hc]].
      rewrite Hit, Hn.
      destruct (RunContext c s) as [[b s1] tr] eqn:E.
      specialize (IH cl1 (if negb b then false else status) s1).
      destruct (run_named_from names cl1 (if negb b then false else status) s1)
        as [[[st cl2] s2] tr'].
      destruct IH as [bs [trs [H1 [H2 H3]]]].
      exists (b :: bs), (tr :: trs). split; [econstructor; eauto|].
      split; [simpl; congruence|]. subst. destruct b, status; reflexivity.
    + specialize (IH cl1 false s).
      destruct (run_named_from names cl1 false s) as [[[st cl2] s2] tr'].
      destruct IH as [bs [trs [H1 [H2 H3]]]].
      exists (false :: bs), ([print (nm ++ "...not found")%string; print endl] :: trs).
      split; [econstructor; eauto|].
      split; [simpl; congruence|]. subst. simpl. rewrite andb_false_r. reflexivity.
Qed.

Lemma names_run_items cl names s bs cl' s' trs :
  names_run cl names s bs cl' s' trs ->
  items cl' = items cl /\ List.length trs = List.length names.
Proof.
  induction 1 as [cl s|cl nm names s cl1 bs cl' s' trs F H [IH1 IH2]
                 |cl nm names s cl1 i c b s1 tr bs cl' s' trs F Hn E H [IH1 IH2]].
  - auto.
  - pose proof (FindContext_items cl nm) as Hit. rewrite F in Hit. simpl in *.
    split; congruence.
  - pose proof (FindContext_items cl nm) as Hit. rewrite F in Hit. simpl in *.
    split; congruence.
Qed.

Lemma names_run_missing cl names s bs cl' s' trs :
  names_run cl names s bs cl' s' trs ->
  forall i nm, nth_error names i = Some nm ->
  (forall c, In c (items cl) -> context_name c <> nm) ->
  nth_error trs i = Some [print (nm ++ "...not found")%string; print endl] /\
  nth_error bs i = Some false.
Proof.
  induction 1 as [cl s|cl nm0 names s cl1 bs cl' s' trs F H IH
                 |cl nm0 names s cl1 i0 c b s1 tr bs cl' s' trs F Hn E H IH];
    intros [|i] nm Hi Hno; simpl in Hi |- *; try discriminate.
  - injection Hi; intros; subst. auto.
  - pose proof (FindContext_items cl nm0) as Hit. rewrite F in Hit. simpl in Hit.
    apply IH; [exact Hi|]. rewrite Hit. exact Hno.
  - injection Hi; intros; subst.
    pose proof (FindContext_some cl nm i0) as Hso. rewrite F in Hso.
    destruct (Hso eq_refl) as [c' [Hc' Hname]].
    exfalso. exact (Hno c' (nth_error_In _ _ Hc') Hname).
  - pose proof (FindContext_items cl nm0) as Hit. rewrite F in Hit. simpl in Hit.
    apply IH; [exact Hi|]. rewrite Hit. exact Hno.
Qed.

(** Claim C2. [Run(contexts, count)] handles every name in turn; a name
    no registered context has is reported with ["...not found"] and
    counts as a failure, so the exit code is 1, and the names after it
    are still handled.  The registry's contexts are left as they are. *)
Theorem RunNamed_missing_names cl names s :
  match RunNamed cl names s with
  | (code, cl', s', tr) =>
      exists bs trs,
        names_run cl names s bs cl' s' trs /\ tr = List.concat trs /\
        List.length trs = List.length names /\ items cl' = items cl /\
        code = (if forallb (fun b => b) bs then 0 else 1) /\
        forall i nm, nth_error names i = Some nm ->
          (forall c, In c (items cl) -> context_name c <> nm) ->
          nth_error trs i = Some [print (nm ++ "...not found")%string; print endl] /\
          code = 1
  end.
Proof.
  unfold RunNamed. pose proof (run_named_decomp names cl true s) as H.
  destruct (run_named_from names cl true s) as [[[st cl'] s'] tr].
  destruct H as [bs [trs [H1 [H2 H3]]]]. exists bs, trs.
  destruct (names_run_items _ _ _ _ _ _ _ H1) as [Hi Hl].
  split; [exact H1|]. split; [exact H2|]. split; [exact Hl|]. split; [exact Hi|].
  split; [rewrite H3; reflexivity|].
  intros i nm Hnm Hno.
  destruct (names_run_missing _ _ _ _ _ _ _ H1 i nm Hnm Hno) as [Ht Hb].
  split; [exact Ht|]. rewrite H3, (forallb_nth_false _ _ Hb). reflexivity.
Qed.

End Execution.

Section Lookup_repeat.

Context {State : Type}.
Implicit Types (cl : @ContextList State).

Lemma find_repeat_after cl nm n :
  find_repeat n (fst (FindContext cl nm)) nm =
  (fst (FindContext cl nm), repeat (snd (FindContext cl nm)) n).
Proof.
  revert cl. induction n as [|n IH]; intros cl; [reflexivity|].
  simpl. rewrite FindContext_again.
  specialize (IH cl).
  destruct (FindContext cl nm) as [cl1 r]. simpl in IH |- *.
  rewrite IH. reflexivity.
Qed.

(** Claim C7. Looking the same name up again and again, with no
    registration in between, returns the same context (the same position
    in the registry) every time, and never changes the list of contexts;
    only [last_used] is assigned. *)
Theorem FindContext_idempotent cl nm n :
  match find_repeat (S n) cl nm with
  | (cl', rs) => (forall r, In r rs -> r = hd None rs) /\ items cl' = items cl
  end.
Proof.
  simpl. pose proof (find_repeat_after cl nm n) as H.
  pose proof (FindContext_items cl nm) as Hit.
  destruct (FindContext cl nm) as [cl1 r]. simpl in H, Hit. rewrite H.
  split; [|exact Hit].
  intros r' [<-|Hin]; [reflexivity|]. simpl. exact (repeat_spec _ _ _ Hin).
Qed.

End Lookup_repeat.

(** Claim C8. Once [m_success] is false, no sequence of the operations a
    test can apply to its [UTestBase] makes it true again. *)
Theorem success_never_restored t ops :
  m_success t = false -> m_success (base_run t ops) = false.
Proof.
  unfold base_run. revert t.
  induction ops as [|op ops IH]; intros t H; simpl; [exact H|].
  apply IH. destruct op as [| | | | |[|]]; simpl; exact H || reflexivity.
Qed.

Section Registration_order.

Context {State : Type}.
Implicit Types (cl : @ContextList State) (regs done : list (@Registration State)).

Lemma existsb_eqb_In x l : existsb (String.eqb x) l = true <-> In x l.
Proof.
  rewrite existsb_exists. split.
  - intros [y [Hy E]]. apply String.eqb_eq in E. subst. exact Hy.
  - intros H. exists x. split; [exact H|]. apply String.eqb_refl.
Qed.

Lemma first_seen_from_In seen l x :
  In x (first_seen_from seen l) <-> In x seen \/ In x l.
Proof.
  revert seen; induction l as [|y l IH]; intros seen; simpl.
  - tauto.
  - rewrite IH. destruct (existsb (String.eqb y) seen) eqn:E.
    + apply existsb_eqb_In in E. split; [tauto|].
      intros [H|[<-|H]]; auto.
    + rewrite in_app_iff. simpl. tauto.
Qed.

Lemma first_seen_from_NoDup seen l : NoDup seen -> NoDup (first_seen_from seen l).
Proof.
  revert seen; induction l as [|y l IH]; intros seen H; simpl; [exact H|].
  apply IH. destruct (existsb (String.eqb y) seen) eqn:E; [exact H|].
  apply NoDup_app; [exact H|constructor; [intros []|constructor]|].
  intros a Ha [<-|[]]. rewrite <- existsb_eqb_In, E in Ha. discriminate.
Qed.

Lemma first_seen_from_snoc seen l x :
  first_seen_from seen (l ++ [x]) =
  (let s' := first_seen_from seen l in
   if existsb (String.eqb x) s' then s' else s' ++ [x]).
Proof. revert seen; induction l as [|y l IH]; intros seen; simpl; auto. Qed.

Lemma update_nth_map {A B : Type} (g : A -> B) f i l :
  (forall x, g (f x) = g x) -> map g (update_nth i f l) = map g l.
Proof.
  intros Hg. revert i; induction l as [|x l IH]; intros [|i]; simpl; auto.
  - rewrite Hg. reflexivity.
  - rewrite IH. reflexivity.
Qed.

Lemma update_nth_nth {A : Type} i (f : A -> A) l j :
  nth_error (update_nth i f l) j =
  if Nat.eqb j i then option_map f (nth_error l j) else nth_error l j.
Proof.
  revert i j; induction l as [|x l IH]; intros [|i] [|j]; simpl; auto;
    destruct (Nat.eqb _ _); reflexivity.
Qed.

Lemma update_nth_last {A : Type} (f : A -> A) l x :
  update_nth (List.length l) f (l ++ [x]) = l ++ [f x].
Proof. induction l as [|y l IH]; simpl; [reflexivity|]. rewrite IH. reflexivity. Qed.

Lemma units_of_snoc regs r nm :
  units_of (regs ++ [r]) nm =
  units_of regs nm ++
  (if String.eqb (r_context r) nm
   then [mkTestItem (r_fn r) (r_name r) (r_must_pass r)] else []).
Proof.
  unfold units_of. rewrite filter_app, map_app. simpl.
  destruct (String.eqb (r_context r) nm); reflexivity.
Qed.

Lemma units_of_absent regs nm :
  ~ In nm (map r_context regs) -> units_of regs nm = [].
Proof.
  intros H. unfold units_of.
  induction regs as [|r regs IH]; simpl in *; [reflexivity|].
  destruct (String.eqb_spec (r_context r) nm) as [E|E].
  - exfalso. auto.
  - apply IH. auto.
Qed.


Lemma reg_inv_empty : reg_inv (@empty_contexts State) [].
Proof. split; [reflexivity|]. intros [|j] c H; discriminate. Qed.

Lemma AddTest_inv cl done r :
  reg_inv cl done ->
  reg_inv (AddTest cl (r_fn r) (r_name r) (r_context r) (r_must_pass r))
          (done ++ [r]).
Proof.
  intros [H1 H2].
  assert (Hnd : NoDup (map context_name (items cl))).
  { rewrite H1. apply first_seen_from_NoDup. constructor. }
  unfold first_seen in *.
  unfold AddTest, FindOrAddContext.
  pose proof (FindContext_items cl (r_context r)) as Hit.
  pose proof (FindContext_some cl (r_context r)) as Hso.
  pose proof (FindContext_none cl (r_context r)) as Hno.
  destruct (FindContext cl (r_context r)) as [cl1 [i|]]; simpl in Hit, Hso, Hno |- *;
    rewrite Hit; unfold reg_inv, first_seen; simpl.
  - destruct (Hso i eq_refl) as [ci [Hci Hname]].
    split.
    + rewrite update_nth_map by reflexivity.
      rewrite map_app; cbn [map]; rewrite first_seen_from_snoc. simpl. rewrite <- H1.
      replace (existsb (String.eqb (r_context r)) (map context_name (items cl)))
        with true; [reflexivity|].
      symmetry. apply existsb_eqb_In. rewrite <- Hname.
      apply in_map. exact (nth_error_In _ _ Hci).
    + intros j c Hj. rewrite update_nth_nth in Hj.
      rewrite units_of_snoc.
      destruct (Nat.eqb_spec j i) as [->|Hne].
      * rewrite Hci in Hj. simpl in Hj. injection Hj; intros <-. simpl.
        rewrite (H2 i ci Hci), Hname, String.eqb_refl. reflexivity.
      * rewrite (H2 j c Hj).
        destruct (String.eqb_spec (r_context r) (context_name c)) as [E|E];
          [|rewrite app_nil_r; reflexivity].
        exfalso. apply Hne.
        apply (proj1 (NoDup_nth_error _) Hnd).
        -- apply nth_error_Some. rewrite nth_error_map, Hj. discriminate.
        -- rewrite !nth_error_map, Hj, Hci. simpl. congruence.
  - assert (Hnot : ~ In (r_context r) (map context_name (items cl))).
    { rewrite in_map_iff. intros [c [Hc Hin]]. exact (proj1 Hno eq_refl c Hin Hc). }
    rewrite update_nth_last. split.
    + rewrite !map_app; cbn [map]; rewrite first_seen_from_snoc. simpl. rewrite <- H1.
      replace (existsb (String.eqb (r_context r)) (map context_name (items cl)))
        with false; [reflexivity|].
      symmetry. destruct (existsb (String.eqb (r_context r)) _) eqn:E; [|reflexivity].
      apply existsb_eqb_In in E. contradiction.
    + intros j c Hj. rewrite units_of_snoc.
      destruct (Nat.ltb_spec j (List.length (items cl))) as [Hlt|Hge].
      * rewrite nth_error_app1 in Hj by exact Hlt.
        rewrite (H2 j c Hj).
        destruct (String.eqb_spec (r_context r) (context_name c)) as [E|E];
          [|rewrite app_nil_r; reflexivity].
        exfalso. apply Hnot. rewrite E. apply in_map. exact (nth_error_In _ _ Hj).
      * rewrite nth_error_app2 in Hj by exact Hge.
        destruct (j - List.length (items cl))%nat as [|k]; simpl in Hj;
          [|destruct k; discriminate].
        injection Hj; intros <-. simpl. rewrite String.eqb_refl.
        rewrite units_of_absent; [reflexivity|].
        rewrite H1, first_seen_from_In in Hnot. simpl in Hnot. tauto.
Qed.

Lemma register_all_inv regs : forall cl done,
  reg_inv cl done -> reg_inv (register_all cl regs) (done ++ regs).
Proof.
  induction regs as [|r regs IH]; intros cl done H; simpl.
  - rewrite app_nil_r. exact H.
  - replace (done ++ r :: regs) with ((done ++ [r]) ++ regs)
      by (rewrite <- app_assoc; reflexivity).
    apply IH. apply AddTest_inv. exact H.
Qed.

(** Claim C6. After any sequence of registrations, the registry holds one
    context per distinct context name, in the order the names were first
    seen; each context holds exactly the tests registered under its name,
    in registration order; and [Run()] runs the contexts in that order. *)
Theorem registration_order regs s :
  let cl := register_all empty_contexts regs in
  map context_name (items cl) = first_seen (map r_context regs) /\
  NoDup (map context_name (items cl)) /\
  (forall c, In c (items cl) -> tests c = units_of regs (context_name c)) /\
  match Run cl s with
  | (_, s', tr) =>
      exists bs trs, contexts_run (items cl) s bs s' trs /\ tr = List.concat trs
  end.
Proof.
  intros cl.
  destruct (register_all_inv regs empty_contexts [] reg_inv_empty) as [H1 H2].
  split; [exact H1|]. split.
  { unfold cl. rewrite H1. apply first_seen_from_NoDup. constructor. }
  split.
  { intros c Hin. destruct (In_nth_error _ _ Hin) as [j Hj]. exact (H2 j c Hj). }
  unfold Run. pose proof (run_contexts_decomp (items cl) true s) as H.
  destruct (run_contexts (items cl) true s) as [[st s'] tr].
  destruct H as [bs [trs [Hr [Ht _]]]]. eauto.
Qed.

End Registration_order.

Section Alignment.

Context {State : Type}.
Implicit Types (cl : @ContextList State) (c : @ContextItem State)
  (regs : list (@Registration State)).


Lemma In_update_nth {A : Type} i (f : A -> A) l x :
  In x (update_nth i f l) -> In x l \/ exists y, In y l /\ x = f y.
Proof.
  revert i; induction l as [|y l IH]; intros [|i]; simpl; auto.
  - intros [<-|H]; eauto.
  - intros [<-|H]; auto.
    destruct (IH i H) as [H'|[z [Hz ->]]]; eauto.
Qed.

Lemma new_align_bounds align nm :
  0 <= align < 2 ^ 32 -> Z.of_nat (String.length nm) <= 2 ^ 32 - 4 ->
  0 <= new_align align nm < 2 ^ 32 /\
  Z.of_nat (String.length nm) + 3 <= new_align align nm /\
  align <= new_align align nm.
Proof.
  intros Ha Hn. unfold new_align, u32_wrap.
  rewrite (Z.mod_small (Z.of_nat (String.length nm))) by lia.
  rewrite Z.mod_small by lia.
  destruct (Z.ltb_spec (Z.of_nat (String.length nm) + 3) align); lia.
Qed.

Lemma AddTest_align cl fn nm ctx mp :
  (forall c, In c (items cl) -> align_ok c) ->
  Z.of_nat (String.length nm) <= 2 ^ 32 - 4 ->
  forall c, In c (items (AddTest cl fn nm ctx mp)) -> align_ok c.
Proof.
  intros H Hn.
  assert (Hf : forall c, align_ok c ->
    align_ok {| context_name := context_name c; init := init c;
                cleanup := cleanup c;
                tests := tests c ++ [mkTestItem fn nm mp];
                align_chars := new_align (align_chars c) nm |}).
  { intros c [Hb Ht]. destruct (new_align_bounds (align_chars c) nm Hb Hn) as [H1 [H2 H3]].
    split; [exact H1|]. simpl. intros t Hin. apply in_app_or in Hin.
    destruct Hin as [Hin|[<-|[]]]; [specialize (Ht t Hin); lia|exact H2]. }
  unfold AddTest, FindOrAddContext.
  pose proof (FindContext_items cl ctx) as Hit.
  destruct (FindContext cl ctx) as [cl1 [i|]]; simpl in Hit |- *; rewrite Hit;
    intros c Hin; apply In_update_nth in Hin;
    destruct Hin as [Hin|[c0 [Hin ->]]].
  - exact (H c Hin).
  - exact (Hf c0 (H c0 Hin)).
  - apply in_app_or in Hin. destruct Hin as [Hin|[<-|[]]]; [exact (H c Hin)|].
    split; [simpl; lia|]. intros t [].
  - apply Hf. apply in_app_or in Hin. destruct Hin as [Hin|[<-|[]]]; [exact (H c0 Hin)|].
    split; [simpl; lia|]. intros t [].
Qed.

Lemma register_all_align regs : forall cl,
  (forall c, In c (items cl) -> align_ok c) ->
  Forall (fun r => Z.of_nat (String.length (r_name r)) <= 2 ^ 32 - 4) regs ->
  forall c, In c (items (register_all cl regs)) -> align_ok c.
Proof.
  induction regs as [|r regs IH]; intros cl H Hr; simpl; [exact H|].
  inversion Hr as [|r' regs' Hr1 Hr2]; subst.
  apply IH; [|exact Hr2]. apply AddTest_align; assumption.
Qed.

(** Claim C9, as the code has it. [AddTest] computes
    [uint32_t(name.size()) + 3] in 32-bit arithmetic; for every test name
    shorter than [2^32 - 3] characters, [align_chars] is at least the
    name's length plus 3 for every test of the context, so the dot count
    [align_chars - class_name.size()] of [PrintTestName] does not wrap
    around. *)
Theorem align_chars_covers_names regs :
  Forall (fun r => Z.of_nat (String.length (r_name r)) <= 2 ^ 32 - 4) regs ->
  forall c t, In c (items (register_all empty_contexts regs)) -> In t (tests c) ->
  Z.of_nat (String.length (name t)) + 3 <= align_chars c /\
  u64_wrap (align_chars c - Z.of_nat (String.length (name t))) =
    align_chars c - Z.of_nat (String.length (name t)).
Proof.
  intros Hr c t Hc Ht.
  assert (Hok : align_ok c).
  { apply (register_all_align regs empty_contexts); [intros c' []|exact Hr|exact Hc]. }
  destruct Hok as [Hb Hall]. specialize (Hall t Ht).
  split; [exact Hall|]. unfold u64_wrap. apply Z.mod_small. lia.
Qed.

End Alignment.

Lemma length_repeat_char n a : String.length (repeat_char n a) = n.
Proof. induction n as [|n IH]; simpl; congruence. Qed.

Lemma register_one {State : Type} (fn : @fnptr State) nm ctx mp :
  items (register_all empty_contexts [mkRegistration fn nm ctx mp]) =
  [{| context_name := ctx; init := None; cleanup := None;
      tests := [mkTestItem fn nm mp]; align_chars := new_align 0 nm |}].
Proof. reflexivity. Qed.

Lemma align_chars_wrap nm :
  Z.of_nat (String.length nm) = 2 ^ 32 - 3 ->
  ~ (forall regs : list (@Registration unit),
       forall c t, In c (items (register_all empty_contexts regs)) ->
       In t (tests c) ->
       Z.of_nat (String.length (name t)) + 3 <= align_chars c).
Proof.
  intros Hlen H.
  specialize (H [mkRegistration (fun s => (true, s, [])) nm "test.cpp"%string false]).
  rewrite register_one in H.
  specialize (H _ _ (or_introl eq_refl) (or_introl eq_refl)).
  cbn [name tests align_chars] in H.
  unfold new_align, u32_wrap in H. rewrite Hlen in H.
  assert (E : ((2 ^ 32 - 3) mod 2 ^ 32 + 3) mod 2 ^ 32 = 0) by reflexivity.
  rewrite E in H. simpl in H. lia.
Qed.

(** Claim C9 fails for a test name of [2^32 - 3] characters:
    [uint32_t(2^32 - 3) + 3] wraps to 0, so [align_chars] stays 0 below
    the name's length. *)
Lemma align_chars_wraps_for_long_name :
  ~ (forall regs : list (@Registration unit),
       forall c t, In c (items (register_all empty_contexts regs)) ->
       In t (tests c) ->
       Z.of_nat (String.length (name t)) + 3 <= align_chars c).
Proof.
  apply (align_chars_wrap (repeat_char (Z.to_nat (2 ^ 32 - 3)) "a"%char)).
  rewrite length_repeat_char. apply Z2Nat.id. lia.
Qed.

Section Assertions.

Context {State : Type}.
Implicit Types (b : list (@stmt State)) (s : State) (t : UTestBase).

Lemma exec_body_app b1 b2 s t :
  exec_body (b1 ++ b2) s t =
  match exec_body b1 s t with
  | (Returned, s1, t1, o1) => (Returned, s1, t1, o1)
  | (Normal, s1, t1, o1) =>
      let '(k, s2, t2, o2) := exec_body b2 s1 t1 in (k, s2, t2, o1 ++ o2)
  end.
Proof.
  revert s t. induction b1 as [|st b1 IH]; intros s t; simpl.
  - destruct (exec_body b2 s t) as [[[k s2] t2] o2]. reflexivity.
  - destruct (exec_stmt st s t) as [[[k1 s1] t1] o1].
    destruct k1; [|reflexivity].
    rewrite IH. destruct (exec_body b1 s1 t1) as [[[k s3] t3] o3].
    destruct k; [|reflexivity].
    destruct (exec_body b2 s3 t3) as [[[k4 s4] t4] o4].
    rewrite app_assoc. reflexivity.
Qed.

(** Claim C4. When the body reaches a [CC0_UTEST_ASSERT], the assertion
    count is incremented; if the asserted relation holds, the body goes
    on; if it does not, the test is marked failed, the diagnostic is
    written, and the body returns at once: the statements after the
    assertion are not executed. *)
Theorem assert_reached pre cond line l op r post s0 t0 s t out :
  exec_body pre s0 t0 = (Normal, s, t, out) ->
  exec_body (pre ++ SAssert cond line l op r :: post) s0 t0 =
  if cond s then
    let '(k, s', t', out') := exec_body post s (IncrementAssertCount t) in
    (k, s', t', out ++ out')
  else
    (Returned, s,
     {| m_assert_count := u64_wrap (m_assert_count t + 1); m_success := false |},
     out ++ [PrintDiag (u64_wrap (m_assert_count t + 1)) line (l s) op (r s)]).
Proof.
  intros H. rewrite exec_body_app, H. simpl.
  destruct (cond s); simpl.
  - destruct (exec_body post s (IncrementAssertCount t)) as [[[k s'] t'] out'].
    reflexivity.
  - reflexivity.
Qed.

End Assertions.

(** ** Witnesses *)

Lemma success_never_restored_witness :
  m_success (Fail UTestBase_new) = false /\
  m_success (base_run (Fail UTestBase_new)
               [OpIncrementAssertCount; OpCompare true; OpSucceeded]) = false.
Proof.
  split; [reflexivity|]. apply success_never_restored. reflexivity.
Defined.

Lemma align_chars_covers_names_witness :
  Forall (fun r => Z.of_nat (String.length (r_name r)) <= 2 ^ 32 - 4) sample_regs /\
  forall c t, In c (items (register_all empty_contexts sample_regs)) ->
  In t (tests c) ->
  Z.of_nat (String.length (name t)) + 3 <= align_chars c /\
  u64_wrap (align_chars c - Z.of_nat (String.length (name t))) =
    align_chars c - Z.of_nat (String.length (name t)).
Proof.
  assert (H : Forall (fun r => Z.of_nat (String.length (r_name r)) <= 2 ^ 32 - 4)
                     sample_regs)
    by (repeat constructor; cbn; lia).
  split; [exact H|]. apply align_chars_covers_names. exact H.
Defined.

Lemma assert_reached_witness :
  exec_body [] 0%nat UTestBase_new = (Normal, 0%nat, UTestBase_new, []) /\
  exec_body ([] ++ SAssert (fun n => Nat.eqb n 1) 12 (fun _ => "0"%string)
                     "==" (fun _ => "1"%string)
                 :: [SCode (fun n => (S n, []))]) 0%nat UTestBase_new =
  (Returned, 0%nat, {| m_assert_count := 1; m_success := false |},
   [PrintDiag 1 12 "0" "==" "1"]).
Proof.
  split; [reflexivity|].
  apply (assert_reached [] (fun n => Nat.eqb n 1) 12 (fun _ => "0"%string) "=="
           (fun _ => "1"%string) [SCode (fun n => (S n, []))] 0%nat UTestBase_new
           0%nat UTestBase_new []).
  reflexivity.
Defined.

(** ** The scenario of the spec *)

(** [u1] and [u2] are called, [u3] is not, and the exit code is 1. *)
Example sample_scenario :
  match Run (register_all empty_contexts sample_regs) 0%nat with
  | (code, n, tr) => code = 1 /\ n = 2%nat /\
                     calls tr = [(CTest 0, true); (CTest 1, false)]
  end.
Proof. vm_compute. auto. Qed.

(** * Further properties *)

(** ** Test names on screen *)

Lemma str_app_assoc (a b c : string) : ((a ++ b) ++ c = a ++ (b ++ c))%string.
Proof. induction a as [|x a IH]; simpl; congruence. Qed.

Lemma str_app_nil_r (a : string) : (a ++ "" = a)%string.
Proof. induction a as [|x a IH]; simpl; congruence. Qed.

Lemma text_of_app (a b : list event) : text_of (a ++ b) = (text_of a ++ text_of b)%string.
Proof.
  induction a as [|e a IH]; simpl; [reflexivity|].
  destruct e as [[]|]; rewrite ?IH, ?str_app_assoc; reflexivity.
Qed.

Lemma text_of_words (ws : list string) :
  text_of (map (fun w => print (w ++ " ")%string) ws) = words_text ws.
Proof.
  induction ws as [|w ws IH]; simpl; [reflexivity|].
  rewrite IH, str_app_assoc. reflexivity.
Qed.

Lemma words_text_snoc ws w :
  words_text (ws ++ [w]) = (words_text ws ++ w ++ " ")%string.
Proof.
  induction ws as [|v ws IH]; simpl; [reflexivity|].
  fold (words_text (ws ++ [w])). fold (words_text ws).
  rewrite IH, !str_app_assoc. reflexivity.
Qed.

Lemma removelast_cons {A : Type} (a : A) l :
  l <> [] -> removelast (a :: l) = a :: removelast l.
Proof. destruct l; [congruence|reflexivity]. Qed.

Lemma last_cons {A : Type} (a d : A) l : l <> [] -> last (a :: l) d = last l d.
Proof. destruct l; [congruence|reflexivity]. Qed.

(** The pieces [split_underscore] cuts a name into: joined with spaces
    they give the name with its underscores turned into spaces, and the
    last piece is empty exactly when the name is empty or ends in
    ['_']. *)
Lemma split_underscore_spec s :
  split_underscore s <> [] /\
  (split_underscore s = [EmptyString] -> s = EmptyString) /\
  (words_text (removelast (split_underscore s)) ++ last (split_underscore s) EmptyString
   = underscores_to_spaces s)%string /\
  (last (split_underscore s) EmptyString = EmptyString <-> ends_in_word s = false).
Proof.
  induction s as [|c s' IH]; [simpl; intuition congruence|].
  destruct IH as [Hne [Hone [Htxt Hlast]]].
  cbn [split_underscore underscores_to_spaces].
  destruct (Ascii.eqb_spec c "_"%char) as [->|Ec].
  - split; [congruence|]. split; [intros H; injection H; intros; subst; contradiction|].
    rewrite removelast_cons, last_cons by exact Hne.
    split; [simpl; rewrite Htxt; reflexivity|].
    rewrite Hlast. destruct s' as [|d s'']; [simpl|reflexivity].
    tauto.
  - destruct (split_underscore s') as [|w ws'] eqn:Es; [congruence|].
    split; [congruence|]. split; [intros H; injection H; intros; discriminate|].
    destruct ws' as [|w' ws''].
    + simpl in Htxt |- *. rewrite Htxt.
      split; [reflexivity|].
      destruct s' as [|d s'']; [simpl; split; [discriminate|]; destruct (Ascii.eqb_spec c "_"%char); [contradiction|discriminate]|].
      change (ends_in_word (String c (String d s''))) with (ends_in_word (String d s'')).
      split; [discriminate|]. intros H. apply Hlast in H. rewrite Htxt in H. simpl in H. discriminate.
    + rewrite removelast_cons in Htxt |- * by discriminate.
      rewrite last_cons in Hlast, Htxt |- * by discriminate.
      simpl in Htxt |- *. rewrite Htxt.
      split; [reflexivity|].
      destruct s' as [|d s'']; [simpl in Es; discriminate|].
      exact Hlast.
Qed.

(** The text of the words [PrintTestName] and [PrintName] write. *)
Lemma name_words_text nm :
  words_text (name_words nm) =
  (underscores_to_spaces nm ++ (if ends_in_word nm then " " else ""))%string.
Proof.
  destruct (split_underscore_spec nm) as [Hne [_ [Htxt Hlast]]].
  unfold name_words.
  destruct (String.eqb_spec (last (split_underscore nm) EmptyString) EmptyString) as [E|E].
  - rewrite <- Htxt, E, str_app_nil_r.
    replace (ends_in_word nm) with false by (symmetry; apply Hlast; exact E).
    rewrite str_app_nil_r. reflexivity.
  - replace (ends_in_word nm) with true
      by (destruct (ends_in_word nm) eqn:Ew; [reflexivity|]; exfalso; apply E, Hlast;
          reflexivity).
    rewrite (app_removelast_last EmptyString Hne) at 1.
    rewrite words_text_snoc, <- Htxt, str_app_assoc. reflexivity.
Qed.

(** PrintTestName writes two spaces, then the test name with every
    underscore replaced by a space, then one more space unless the name
    is empty or ends in an underscore, then a backspace; after that come
    the dots. *)
Theorem PrintTestName_text nm align :
  text_of (PrintTestName nm align) =
  ("  " ++ underscores_to_spaces nm ++ (if ends_in_word nm then " " else "")
        ++ backspace)%string.
Proof.
  unfold PrintTestName. rewrite !text_of_app, text_of_words, name_words_text.
  simpl. rewrite !str_app_assoc. reflexivity.
Qed.

(** ** Lookup and insertion *)

Section Lookup_insert.

Context {State : Type}.
Implicit Types (cl : @ContextList State) (c : @ContextItem State).

(** [FindOrAddContext] returns a context with the name asked for and
    leaves [last_used] on it.  When a context of that name exists the
    list of contexts is unchanged; otherwise exactly one new, empty
    context of that name is appended, and its position is returned. *)
Theorem FindOrAddContext_spec cl nm :
  match FindOrAddContext cl nm with
  | (cl', i) =>
      last_used cl' = Some i /\
      (exists c, nth_error (items cl') i = Some c /\ context_name c = nm) /\
      ((exists c, In c (items cl) /\ context_name c = nm) -> items cl' = items cl) /\
      ((forall c, In c (items cl) -> context_name c <> nm) ->
         items cl' = items cl ++ [new_context nm] /\ i = List.length (items cl))
  end.
Proof.
  unfold FindOrAddContext.
  pose proof (FindContext_items cl nm) as Hit.
  pose proof (FindContext_last_used cl nm) as Hlu.
  pose proof (FindContext_some cl nm) as Hso.
  pose proof (FindContext_none cl nm) as Hno.
  destruct (FindContext cl nm) as [cl1 [i|]]; simpl in Hit, Hlu, Hso, Hno.
  - destruct (Hso i eq_refl) as [c [Hc Hn]].
    split; [exact Hlu|]. split; [rewrite Hit; eauto|].
    split; [intros _; exact Hit|].
    intros Hall. exfalso. exact (Hall c (nth_error_In _ _ Hc) Hn).
  - simpl. rewrite Hit. split; [reflexivity|]. split.
    + exists (new_context nm). split; [|reflexivity].
      rewrite nth_error_app2, Nat.sub_diag by lia. reflexivity.
    + split; [|intros _; split; reflexivity].
      intros [c [Hin Hn]]. exfalso. exact (proj1 Hno eq_refl c Hin Hn).
Qed.

Lemma NoDup_map_nth_error {A B : Type} (f : A -> B) l i j x y :
  NoDup (map f l) -> nth_error l i = Some x -> nth_error l j = Some y ->
  f x = f y -> i = j.
Proof.
  intros Hnd Hi Hj E. apply (proj1 (NoDup_nth_error _) Hnd).
  - apply nth_error_Some. rewrite nth_error_map, Hi. discriminate.
  - rewrite !nth_error_map, Hi, Hj. simpl. congruence.
Qed.

Lemma FindContext_unique cl nm i :
  NoDup (map context_name (items cl)) ->
  snd (FindContext cl nm) = Some i <->
  exists c, nth_error (items cl) i = Some c /\ context_name c = nm.
Proof.
  intros Hnd. split; [apply FindContext_some|].
  intros [c [Hc Hn]].
  destruct (snd (FindContext cl nm)) as [j|] eqn:E.
  - destruct (FindContext_some _ _ _ E) as [c' [Hc' Hn']].
    f_equal. apply (NoDup_map_nth_error context_name (items cl) j i c' c Hnd Hc' Hc).
    congruence.
  - exfalso. exact (proj1 (FindContext_none cl nm) E c (nth_error_In _ _ Hc) Hn).
Qed.

(** While the context names are distinct (as registration keeps them),
    [FindContext] finds exactly the position
    of the context with the name, whatever [last_used] holds. *)
Theorem FindContext_exact cl nm i :
  NoDup (map context_name (items cl)) ->
  snd (FindContext cl nm) = Some i <->
  exists c, nth_error (items cl) i = Some c /\ context_name c = nm.
Proof. apply FindContext_unique. Qed.

End Lookup_insert.

(** ** Results of a run *)

Lemma calls_app (a b : list event) : calls (a ++ b) = calls a ++ calls b.
Proof. unfold calls. apply flat_map_app. Qed.

Lemma calls_map_Out (out : list output) : calls (map Out out) = [].
Proof. induction out; simpl; auto. Qed.

Lemma calls_PrintTestName nm align : calls (PrintTestName nm align) = [].
Proof.
  unfold PrintTestName. rewrite !calls_app.
  assert (H : forall ws : list string,
             calls (map (fun w => print (w ++ " ")%string) ws) = [])
    by (induction ws; simpl; auto).
  rewrite H. reflexivity.
Qed.

Lemma calls_cons_Out o (tr : list event) : calls (Out o :: tr) = calls tr.
Proof. reflexivity. Qed.

Lemma calls_cons_print str (tr : list event) : calls (print str :: tr) = calls tr.
Proof. reflexivity. Qed.

Lemma calls_map_print {A : Type} (f : A -> string) (l : list A) :
  calls (map (fun x => print (f x)) l) = [].
Proof. induction l; simpl; auto. Qed.

Lemma calls_cons_Ran cb b (tr : list event) : calls (Ran cb b :: tr) = (cb, b) :: calls tr.
Proof. reflexivity. Qed.

Lemma calls_nil : calls [] = [].
Proof. reflexivity. Qed.

Create Rewrite HintDb calls_db.
#[local] Hint Rewrite calls_app calls_map_Out calls_PrintTestName calls_cons_Out calls_cons_print
  @calls_map_print calls_cons_Ran calls_nil : calls_db.

Section Results.

Ltac red_ctx := cbn beta iota zeta delta [negb].

Context {State : Type}.
Implicit Types (cl : @ContextList State) (c : @ContextItem State)
  (ts : list (@TestItem State)) (s : State).

Lemma run_tests_from_calls ts : forall k0 align status s,
  match run_tests_from k0 ts align status s with
  | (st, _, tr) =>
      exists bs,
        calls tr = combine (map CTest (seq k0 (List.length bs))) bs /\
        (List.length bs <= List.length ts)%nat /\
        st = status && forallb (fun b => b) bs /\
        ((List.length bs < List.length ts)%nat ->
           exists t, nth_error ts (List.length bs - 1) = Some t /\
                     must_pass t = true /\ last bs true = false)
  end.
Proof.
  induction ts as [|t ts IH]; intros k0 align status s; simpl.
  - exists []. simpl. split; [reflexivity|]. split; [lia|].
    split; [rewrite andb_true_r; reflexivity|]. lia.
  - destruct (test t s) as [[ok s1] out].
    assert (Hstep : forall (st : bool) (bs : list bool),
      ((List.length bs < List.length ts)%nat ->
         exists t', nth_error ts (List.length bs - 1) = Some t' /\
                    must_pass t' = true /\ last bs true = false) ->
      ((List.length (ok :: bs) < List.length (t :: ts))%nat ->
         exists t', nth_error (t :: ts) (List.length (ok :: bs) - 1) = Some t' /\
                    must_pass t' = true /\ last (ok :: bs) true = false)).
    { intros st bs H Hlt. simpl in Hlt. destruct (H ltac:(lia)) as [t' [Hn [Hm Hl]]].
      destruct bs as [|b bs]; [discriminate|]. exists t'.
      simpl in Hn |- *. rewrite Nat.sub_0_r in Hn. auto. }
    destruct ok; [|destruct (must_pass t) eqn:Hm].
    + specialize (IH (S k0) align status s1).
      destruct (run_tests_from (S k0) ts align status s1) as [[st s2] tr].
      destruct IH as [bs [H1 [H2 [H3 H4]]]].
      exists (true :: bs). autorewrite with calls_db. rewrite H1.
      split; [reflexivity|]. split; [simpl; lia|].
      split; [exact H3|]. exact (Hstep st bs H4).
    + exists [false]. autorewrite with calls_db. split; [reflexivity|].
      split; [simpl; lia|]. split; [rewrite andb_false_r; reflexivity|].
      intros _. exists t. auto.
    + specialize (IH (S k0) align false s1).
      destruct (run_tests_from (S k0) ts align false s1) as [[st s2] tr].
      destruct IH as [bs [H1 [H2 [H3 H4]]]].
      exists (false :: bs). autorewrite with calls_db. rewrite H1.
      split; [reflexivity|]. split; [simpl; lia|].
      split; [rewrite H3, andb_false_r; reflexivity|]. exact (Hstep st bs H4).
Qed.

(** [RunTests] calls the tests of the list in order, each at most once,
    starting with the first: the calls recorded are the tests in
    positions 0, 1, ..., m-1 for some m no larger than the number of
    tests.  The result is true exactly when all these calls returned
    true, and the run stops before the end of the list only right after
    a test with [must_pass] set returned false. *)
Theorem RunTests_calls ts align s :
  match RunTests ts align s with
  | (st, _, tr) =>
      exists bs,
        calls tr = combine (map CTest (seq 0 (List.length bs))) bs /\
        (List.length bs <= List.length ts)%nat /\
        st = forallb (fun b => b) bs /\
        ((List.length bs < List.length ts)%nat ->
           exists t, nth_error ts (List.length bs - 1) = Some t /\
                     must_pass t = true /\ last bs true = false)
  end.
Proof. exact (run_tests_from_calls ts 0 align true s). Qed.

Lemma forallb_snd_combine {A : Type} (xs : list A) (bs : list bool) :
  List.length xs = List.length bs ->
  forallb snd (combine xs bs) = forallb (fun b => b) bs.
Proof.
  revert bs; induction xs as [|x xs IH]; intros [|b bs] H; simpl in *;
    try discriminate; [reflexivity|].
  rewrite IH by lia. reflexivity.
Qed.

Lemma run_tests_from_result ts k0 align status s :
  match run_tests_from k0 ts align status s with
  | (st, _, tr) => st = status && forallb snd (calls tr)
  end.
Proof.
  pose proof (run_tests_from_calls ts k0 align status s) as H.
  destruct (run_tests_from k0 ts align status s) as [[st s'] tr].
  destruct H as [bs [H1 [_ [H2 _]]]].
  rewrite H1, forallb_snd_combine; [exact H2|].
  rewrite length_map, length_seq. reflexivity.
Qed.

Lemma RunContext_calls c s :
  match RunContext c s with
  | (b, _, tr) => b = forallb snd (calls tr)
  end.
Proof.
  unfold RunContext, RunTests.
  destruct (init c) as [f|]; [destruct (f s) as [[bi s1] out]; destruct bi|]; red_ctx.
  - pose proof (run_tests_from_result (tests c) 0 (align_chars c) true s1) as Hr.
    destruct (run_tests_from 0 (tests c) (align_chars c) true s1) as [[r s2] tr2].
    red_ctx. destruct (cleanup c) as [g|];
      [destruct (g s2) as [[bc s3] out3]|]; red_ctx;
      autorewrite with calls_db; rewrite ?forallb_app; subst r; simpl;
      [destruct bc|]; destruct (forallb snd (calls tr2)); reflexivity.
  - destruct (cleanup c) as [g|];
      [destruct (g s1) as [[bc s3] out3]|]; red_ctx;
      autorewrite with calls_db; rewrite ?forallb_app; simpl;
      [destruct bc|]; reflexivity.
  - pose proof (run_tests_from_result (tests c) 0 (align_chars c) true s) as Hr.
    destruct (run_tests_from 0 (tests c) (align_chars c) true s) as [[r s2] tr2].
    red_ctx. destruct (cleanup c) as [g|];
      [destruct (g s2) as [[bc s3] out3]|]; red_ctx;
      autorewrite with calls_db; rewrite ?forallb_app; subst r; simpl;
      [destruct bc|]; destruct (forallb snd (calls tr2)); reflexivity.
Qed.

(** [RunContext] succeeds exactly when every function it called (the
    init hook, the tests it ran, the cleanup hook) returned true. *)
Theorem RunContext_result c s :
  match RunContext c s with
  | (b, _, tr) => b = forallb snd (calls tr)
  end.
Proof. apply RunContext_calls. Qed.

Lemma run_contexts_result cs : forall status s,
  match run_contexts cs status s with
  | (st, _, tr) => st = status && forallb snd (calls tr)
  end.
Proof.
  induction cs as [|c cs IH]; intros status s; simpl.
  - rewrite andb_true_r. reflexivity.
  - pose proof (RunContext_calls c s) as Hc.
    destruct (RunContext c s) as [[b s1] tr] eqn:E.
    specialize (IH (if negb b then false else status) s1).
    destruct (run_contexts cs (if negb b then false else status) s1) as [[st s2] tr'].
    rewrite IH, calls_app, forallb_app, <- Hc. destruct b, status; reflexivity.
Qed.

(** [Run()] returns 0 exactly when every function it called (all init
    hooks, tests and cleanup hooks) returned true, and 1 otherwise. *)
Theorem Run_exit_code cl s :
  match Run cl s with
  | (code, _, tr) => code = if forallb snd (calls tr) then 0 else 1
  end.
Proof.
  unfold Run. pose proof (run_contexts_result (items cl) true s) as H.
  destruct (run_contexts (items cl) true s) as [[st s'] tr].
  rewrite H. reflexivity.
Qed.

Lemma existsb_name_false cl nm :
  existsb (fun c => String.eqb (context_name c) nm) (items cl) = false <->
  (forall c, In c (items cl) -> context_name c <> nm).
Proof.
  rewrite <- Bool.not_true_iff_false, existsb_exists. split.
  - intros H c Hin E. apply H. exists c. split; [exact Hin|]. apply String.eqb_eq, E.
  - intros H [c [Hin E]]. apply String.eqb_eq in E. exact (H c Hin E).
Qed.

Lemma run_named_result names : forall cl status s,
  match run_named_from names cl status s with
  | (st, _, _, tr) =>
      st = status &&
           forallb (fun nm => existsb (fun c => String.eqb (context_name c) nm) (items cl))
                   names &&
           forallb snd (calls tr)
  end.
Proof.
  induction names as [|nm names IH]; intros cl status s; simpl.
  - rewrite !andb_true_r. reflexivity.
  - pose proof (FindContext_items cl nm) as Hit.
    pose proof (FindContext_last_used cl nm) as Hlu.
    pose proof (FindContext_some cl nm) as Hso.
    pose proof (FindContext_none cl nm) as Hno.
    destruct (FindContext cl nm) as [cl1 r] eqn:F. simpl in Hit, Hlu, Hso, Hno.
    rewrite Hlu. destruct r as [i|].
    + destruct (Hso i eq_refl) as [c [Hn Hc]].
      assert (Hex : existsb (fun c => String.eqb (context_name c) nm) (items cl) = true).
      { apply existsb_exists. exists c. split; [exact (nth_error_In _ _ Hn)|].
        apply String.eqb_eq, Hc. }
      rewrite Hit, Hn.
      pose proof (RunContext_calls c s) as Hr.
      destruct (RunContext c s) as [[b s1] tr] eqn:E.
      specialize (IH cl1 (if negb b then false else status) s1).
      destruct (run_named_from names cl1 (if negb b then false else status) s1)
        as [[[st cl2] s2] tr'].
      rewrite IH, Hit, Hex, calls_app, forallb_app, <- Hr.
      destruct b, status; simpl;
        repeat match goal with |- context [forallb ?f ?l] => destruct (forallb f l) end;
        reflexivity.
    + assert (Hex : existsb (fun c => String.eqb (context_name c) nm) (items cl) = false)
        by (apply existsb_name_false, Hno; reflexivity).
      specialize (IH cl1 false s).
      destruct (run_named_from names cl1 false s) as [[[st cl2] s2] tr'].
      rewrite IH, Hex. simpl. rewrite !andb_false_r. reflexivity.
Qed.

(** [Run(contexts, count)] returns 0 exactly when every name passed is
    the name of a registered context and every function called while
    running those contexts returned true; otherwise it returns 1. *)
Theorem RunNamed_exit_code cl names s :
  match RunNamed cl names s with
  | (code, _, _, tr) =>
      code = if forallb (fun nm => existsb (fun c => String.eqb (context_name c) nm)
                                           (items cl)) names
                && forallb snd (calls tr)
             then 0 else 1
  end.
Proof.
  unfold RunNamed. pose proof (run_named_result names cl true s) as H.
  destruct (run_named_from names cl true s) as [[[st cl'] s'] tr].
  rewrite H. reflexivity.
Qed.

Lemma run_named_all cs : forall cl status s,
  NoDup (map context_name (items cl)) ->
  (forall c, In c cs -> In c (items cl)) ->
  match run_named_from (map context_name cs) cl status s with
  | (st, cl', s', tr) => (st, s', tr) = run_contexts cs status s /\ items cl' = items cl
  end.
Proof.
  induction cs as [|c cs IH]; intros cl status s Hnd Hin; simpl; [auto|].
  pose proof (FindContext_items cl (context_name c)) as Hit.
  pose proof (FindContext_last_used cl (context_name c)) as Hlu.
  destruct (In_nth_error _ _ (Hin c (or_introl eq_refl))) as [j Hj].
  assert (Hf : snd (FindContext cl (context_name c)) = Some j)
    by (apply FindContext_unique; [exact Hnd|eauto]).
  destruct (FindContext cl (context_name c)) as [cl1 r] eqn:F.
  simpl in Hit, Hlu, Hf. rewrite Hf in Hlu. rewrite Hlu, Hit, Hj.
  destruct (RunContext c s) as [[b s1] tr] eqn:E.
  specialize (IH cl1 (if negb b then false else status) s1).
  rewrite Hit in IH. specialize (IH Hnd (fun c' H => Hin c' (or_intror H))).
  destruct (run_named_from (map context_name cs) cl1 (if negb b then false else status) s1)
    as [[[st cl2] s2] tr'].
  destruct (run_contexts cs (if negb b then false else status) s1) as [[st' s2'] tr''].
  destruct IH as [IH1 IH2]. injection IH1; intros; subst.
  split; [reflexivity|]. congruence.
Qed.

(** While the context names are distinct (as registration keeps them),
    [Run(contexts, count)] given the names of all registered contexts in
    registry order does what [Run()] does: the same exit code, final
    state and output. *)
Theorem RunNamed_all_contexts cl s :
  NoDup (map context_name (items cl)) ->
  match RunNamed cl (map context_name (items cl)) s, Run cl s with
  | (code, _, s', tr), (code', s'', tr') => code = code' /\ s' = s'' /\ tr = tr'
  end.
Proof.
  intros Hnd. unfold RunNamed, Run.
  pose proof (run_named_all (items cl) cl true s Hnd (fun c H => H)) as H.
  destruct (run_named_from (map context_name (items cl)) cl true s) as [[[st cl'] s'] tr].
  destruct (run_contexts (items cl) true s) as [[st' s''] tr'].
  destruct H as [H _]. injection H; intros; subst. auto.
Qed.

End Results.

(** ** Hooks *)

Section Hooks.

Context {State : Type}.
Implicit Types (cl : @ContextList State) (c : @ContextItem State)
  (ts : list (@TestItem State)) (regs : list (@Registration State)).

Lemma AddTest_no_hooks cl fn nm ctx mp :
  (forall c, In c (items cl) -> init c = None /\ cleanup c = None) ->
  forall c, In c (items (AddTest cl fn nm ctx mp)) -> init c = None /\ cleanup c = None.
Proof.
  intros H. unfold AddTest, FindOrAddContext.
  pose proof (FindContext_items cl ctx) as Hit.
  destruct (FindContext cl ctx) as [cl1 [i|]]; simpl in Hit |- *; rewrite Hit;
    intros c Hin; apply In_update_nth in Hin;
    destruct Hin as [Hin|[c0 [Hin ->]]]; simpl.
  - exact (H c Hin).
  - exact (H c0 Hin).
  - apply in_app_or in Hin. destruct Hin as [Hin|[<-|[]]]; [exact (H c Hin)|auto].
  - apply in_app_or in Hin. destruct Hin as [Hin|[<-|[]]]; [exact (H c0 Hin)|auto].
Qed.

Lemma register_all_no_hooks regs : forall cl,
  (forall c, In c (items cl) -> init c = None /\ cleanup c = None) ->
  forall c, In c (items (register_all cl regs)) -> init c = None /\ cleanup c = None.
Proof.
  induction regs as [|r regs IH]; intros cl H; simpl; [exact H|].
  apply IH. apply AddTest_no_hooks. exact H.
Qed.

Lemma run_tests_from_only_tests ts : forall k0 align status s,
  match run_tests_from k0 ts align status s with
  | (_, _, tr) => forall cb b, In (cb, b) (calls tr) -> exists j, cb = CTest j
  end.
Proof.
  intros k0 align status s.
  pose proof (run_tests_from_calls ts k0 align status s) as H.
  destruct (run_tests_from k0 ts align status s) as [[st s'] tr].
  destruct H as [bs [H1 _]]. rewrite H1. intros cb b Hin.
  apply in_combine_l, in_map_iff in Hin. destruct Hin as [j [<- _]]. eauto.
Qed.

Lemma run_contexts_only_tests cs : forall status s,
  (forall c, In c cs -> init c = None /\ cleanup c = None) ->
  match run_contexts cs status s with
  | (_, _, tr) => forall cb b, In (cb, b) (calls tr) -> exists j, cb = CTest j
  end.
Proof.
  induction cs as [|c cs IH]; intros status s H; simpl; [intros cb b []|].
  destruct (H c (or_introl eq_refl)) as [Hi Hc].
  destruct (RunContext c s) as [[b s1] tr] eqn:E.
  specialize (IH (if negb b then false else status) s1 (fun c' H' => H c' (or_intror H'))).
  destruct (run_contexts cs (if negb b then false else status) s1) as [[st s2] tr'].
  intros cb b' Hin. rewrite calls_app in Hin. apply in_app_or in Hin.
  destruct Hin as [Hin|Hin]; [|exact (IH cb b' Hin)].
  unfold RunContext, RunTests in E. rewrite Hi, Hc in E. cbn beta iota zeta in E.
  pose proof (run_tests_from_only_tests (tests c) 0 (align_chars c) true s) as HT.
  destruct (run_tests_from 0 (tests c) (align_chars c) true s) as [[r s3] tr2].
  injection E; intros; subst.
  autorewrite with calls_db in Hin. rewrite app_nil_r in Hin. exact (HT cb b' Hin).
Qed.

(** [cc0::utest] has no way to install an init or cleanup hook: every
    context that registration creates has neither, and [Run()] on the
    registry calls nothing but tests. *)
Theorem registered_contexts_have_no_hooks regs s :
  let cl := register_all empty_contexts regs in
  (forall c, In c (items cl) -> init c = None /\ cleanup c = None) /\
  match Run cl s with
  | (_, _, tr) => forall cb b, In (cb, b) (calls tr) -> exists k, cb = CTest k
  end.
Proof.
  intros cl.
  assert (H : forall c, In c (items cl) -> init c = None /\ cleanup c = None)
    by (apply register_all_no_hooks; intros c []).
  split; [exact H|].
  unfold Run. pose proof (run_contexts_only_tests (items cl) true s H) as HR.
  destruct (run_contexts (items cl) true s) as [[st s'] tr]. exact HR.
Qed.

End Hooks.

(** ** Test bodies *)

Section Bodies.

Context {State : Type}.
Implicit Types (b pre post : list (@stmt State)) (s : State) (t : UTestBase).

Lemma no_direct_calls_app pre post :
  no_direct_calls (pre ++ post) = true -> no_direct_calls pre = true.
Proof.
  unfold no_direct_calls. rewrite forallb_app. intros H.
  apply andb_prop in H. exact (proj1 H).
Qed.

Lemma exec_body_normal_count b : forall s t s' t' out,
  no_direct_calls b = true ->
  exec_body b s t = (Normal, s', t', out) -> 0 <= m_assert_count t < 2 ^ 64 ->
  m_assert_count t' = u64_wrap (m_assert_count t + Z.of_nat (count_asserts b)) /\
  m_success t' = m_success t.
Proof.
  induction b as [|st b IH]; intros s t s' t' out Hd H Hr; simpl in H.
  - injection H; intros; subst. simpl. unfold u64_wrap.
    rewrite Z.add_0_r, Z.mod_small by exact Hr. auto.
  - unfold no_direct_calls in Hd. simpl in Hd.
    destruct st as [cond line l op r| | | |f]; simpl in Hd, H;
      try discriminate.
    + destruct (cond s); simpl in H; [|discriminate].
      destruct (exec_body b s (IncrementAssertCount t)) as [[[k s2] t2] o2] eqn:E.
      injection H; intros; subst.
      assert (Hr1 : 0 <= m_assert_count (IncrementAssertCount t) < 2 ^ 64)
        by (simpl; unfold u64_wrap; apply Z.mod_pos_bound; lia).
      destruct (IH _ _ _ _ _ Hd E Hr1) as [H1 H2]. split; [|exact H2].
      rewrite H1. simpl. unfold u64_wrap.
      rewrite Zplus_mod_idemp_l. f_equal. lia.
    + destruct (f s) as [s1 o1].
      destruct (exec_body b s1 t) as [[[k s2] t2] o2] eqn:E.
      injection H; intros; subst. exact (IH _ _ _ _ _ Hd E Hr).
Qed.

Lemma exec_body_fail b : forall s t,
  no_direct_calls b = true ->
  m_success t = true ->
  match exec_body b s t with
  | (_, s', t', out) =>
      m_success t' = false ->
      exists pre cond line l op r post s1 t1 out1,
        b = pre ++ SAssert cond line l op r :: post /\
        exec_body pre s t = (Normal, s1, t1, out1) /\
        cond s1 = false /\ s' = s1 /\
        t' = Fail (IncrementAssertCount t1) /\
        out = out1 ++ [PrintDiag (AssertCount (Fail (IncrementAssertCount t1)))
                                 line (l s1) op (r s1)]
  end.
Proof.
  induction b as [|st b IH]; intros s t Hd Hs; simpl; [congruence|].
  unfold no_direct_calls in Hd. simpl in Hd.
  destruct st as [cond line l op r| | | |f]; simpl in Hd |- *; try discriminate.
  - destruct (cond s) eqn:Ec; simpl.
    + specialize (IH s (IncrementAssertCount t) Hd Hs).
      destruct (exec_body b s (IncrementAssertCount t)) as [[[k s2] t2] o2] eqn:E.
      intros Hf. destruct (IH Hf) as
        [pre [cond' [line' [l' [op' [r' [post [s1 [t1 [out1 [H1 [H2 [H3 [H4 [H5 H6]]]]]]]]]]]]]]].
      exists (SAssert cond line l op r :: pre), cond', line', l', op', r', post, s1, t1, out1.
      split; [rewrite H1; reflexivity|].
      split; [simpl; rewrite Ec; simpl; rewrite H2; reflexivity|].
      auto.
    + intros _. exists [], cond, line, l, op, r, b, s, t, [].
      split; [reflexivity|]. split; [reflexivity|]. auto.
  - congruence.
  - destruct (f s) as [s1 o1] eqn:Ef.
    specialize (IH s1 t Hd Hs).
    destruct (exec_body b s1 t) as [[[k s2] t2] o2] eqn:E.
    intros Hf. destruct (IH Hf) as
      [pre [cond' [line' [l' [op' [r' [post [s3 [t1 [out1 [H1 [H2 [H3 [H4 [H5 H6]]]]]]]]]]]]]]].
    exists (SCode f :: pre), cond', line', l', op', r', post, s3, t1, (o1 ++ out1).
    split; [rewrite H1; reflexivity|].
    split; [simpl; rewrite Ef, H2; reflexivity|].
    split; [exact H3|]. split; [exact H4|]. split; [exact H5|].
    rewrite H6, app_assoc. reflexivity.
Qed.

(** A test generated by [CC0_UTEST_END] whose body calls neither [Fail()]
    nor [IncrementAssertCount()] itself (it may still [return]) returns
    false exactly when its body reaches a [CC0_UTEST_ASSERT] whose relation
    does not hold.  The body stops there, and its output ends with that
    assertion's message, whose number [#n] is the position of the failing
    assertion among the body's assertions (counting from 1). *)
Theorem run_unit_result body s :
  no_direct_calls body = true ->
  match run_unit body s with
  | (b, s', out) =>
      b = false <->
      exists pre cond line l op r post s1 t1 out1,
        body = pre ++ SAssert cond line l op r :: post /\
        exec_body pre s UTestBase_new = (Normal, s1, t1, out1) /\
        cond s1 = false /\ s' = s1 /\
        out = out1 ++ [PrintDiag (u64_wrap (Z.of_nat (count_asserts pre) + 1))
                                 line (l s1) op (r s1)]
  end.
Proof.
  intros Hd. unfold run_unit.
  pose proof (exec_body_fail body s UTestBase_new Hd eq_refl) as HF.
  destruct (exec_body body s UTestBase_new) as [[[k s'] t] out] eqn:E.
  assert (Hcount : forall pre post s1 t1 out1,
    body = pre ++ post ->
    exec_body pre s UTestBase_new = (Normal, s1, t1, out1) ->
    AssertCount (Fail (IncrementAssertCount t1)) =
    u64_wrap (Z.of_nat (count_asserts pre) + 1)).
  { intros pre post s1 t1 out1 Hb Hp. rewrite Hb in Hd.
    destruct (exec_body_normal_count pre _ _ _ _ _ (no_direct_calls_app _ _ Hd)
                Hp ltac:(simpl; lia)) as [Hc _].
    simpl. rewrite Hc. unfold u64_wrap. rewrite Zplus_mod_idemp_l. reflexivity. }
  split.
  - intros Hb. destruct (HF Hb) as
      [pre [cond [line [l [op [r [post [s1 [t1 [out1 [H1 [H2 [H3 [H4 [H5 H6]]]]]]]]]]]]]]].
    exists pre, cond, line, l, op, r, post, s1, t1, out1.
    split; [exact H1|]. split; [exact H2|]. split; [exact H3|]. split; [exact H4|].
    rewrite H6, (Hcount _ _ _ _ _ H1 H2). reflexivity.
  - intros [pre [cond [line [l [op [r [post [s1 [t1 [out1 [H1 [H2 [H3 _]]]]]]]]]]]]].
    rewrite H1, exec_body_app, H2 in E. simpl in E. rewrite H3 in E. simpl in E.
    injection E; intros; subst. reflexivity.
Qed.

End Bodies.

(** ** The older namespace [utest] *)

Module Legacy_props.

Import Legacy.

Section Legacy_props.

Context {State : Type}.
Implicit Types (cl : @ContextList State) (c : @ContextItem State)
  (b pre post : list (@lstmt State)) (s : State) (t : UTestBase).

Lemma scan_absent cs nm : forall k,
  (forall c, In c cs -> context_name c <> nm) -> @scan State cs nm k = None.
Proof.
  induction cs as [|c cs IH]; intros k H; simpl; [reflexivity|].
  destruct (String.eqb_spec (context_name c) nm) as [E|E].
  - exfalso. exact (H c (or_introl eq_refl) E).
  - apply IH. intros c' Hin. apply H. right. exact Hin.
Qed.

Lemma FindContext_absent cl nm :
  (forall c, In c (items cl) -> context_name c <> nm) ->
  FindContext cl nm = ({| items := items cl; last_used := None |}, None).
Proof.
  intros H. unfold FindContext, cache_hit.
  assert (Hc : match last_used cl with
               | Some i => match nth_error (items cl) i with
                           | Some c => String.eqb (context_name c) nm
                           | None => false
                           end
               | None => false
               end = false).
  { destruct (last_used cl) as [i|]; [|reflexivity].
    destruct (nth_error (items cl) i) as [c|] eqn:Hn; [|reflexivity].
    apply String.eqb_neq. exact (H c (nth_error_In _ _ Hn)). }
  rewrite Hc, (scan_absent _ _ 0 H). reflexivity.
Qed.

(** Unlike [cc0::utest], the older [Run(contexts, count)] passes over a
    name no context has without a word: given only such names it returns
    0, writes nothing, calls nothing and leaves the contexts as they
    are. *)
Theorem Legacy_RunNamed_unknown_names cl names s :
  (forall nm c, In nm names -> In c (items cl) -> context_name c <> nm) ->
  match RunNamed cl names s with
  | (code, cl', s', tr) => code = 0 /\ s' = s /\ tr = [] /\ items cl' = items cl
  end.
Proof.
  intros H. unfold RunNamed.
  assert (G : forall names cl status,
    (forall nm c, In nm names -> In c (items cl) -> context_name c <> nm) ->
    run_named_from names cl status s = (status, {| items := items cl;
      last_used := match names with [] => last_used cl | _ => None end |}, s, [])).
  { induction names0 as [|nm names0 IH]; intros cl0 status H0; simpl.
    - destruct cl0; reflexivity.
    - rewrite (FindContext_absent cl0 nm (fun c Hc => H0 nm c (or_introl eq_refl) Hc)).
      simpl. rewrite IH; [destruct names0; reflexivity|].
      intros nm' c Hn Hc. exact (H0 nm' c (or_intror Hn) Hc). }
  rewrite (G names cl true H). auto.
Qed.

Lemma exec_lbody_plain b : forall s t,
  Forall (fun st => match st with LAssert _ | LCode _ => True | _ => False end) b ->
  match exec_lbody b s t with (_, _, t', _) => t' = t end.
Proof.
  induction b as [|st b IH]; intros s t H; simpl; [reflexivity|].
  inversion H as [|st' b' Hst Hb]; subst.
  destruct st as [k fails l r|k fails l r|e|f]; try contradiction; simpl.
  - destruct (e s); simpl; [|reflexivity].
    specialize (IH s t Hb). destruct (exec_lbody b s t) as [[[k s2] t2] o2]. exact IH.
  - destruct (f s) as [s1 o1].
    specialize (IH s1 t Hb). destruct (exec_lbody b s1 t) as [[[k s2] t2] o2]. exact IH.
Qed.

(** An [UTEST_ASSERT(e)] on an expression that calls none of the
    comparison helpers only returns from the body when [e] is false: it
    neither counts the assertion nor marks the test failed.  A test whose
    checks are all of this form always reports success. *)
Theorem Legacy_plain_asserts_succeed unit_name body s :
  Forall (fun st => match st with LAssert _ | LCode _ => True | _ => False end) body ->
  fst (fst (run_unit unit_name body s)) = true.
Proof.
  intros H. unfold run_unit, UTestBase_ctor.
  pose proof (exec_lbody_plain body s UTestBase_new H) as Hb.
  destruct (exec_lbody body s UTestBase_new) as [[[k s'] t] out].
  subst t. reflexivity.
Qed.

Lemma exec_lbody_app b1 b2 s t :
  exec_lbody (b1 ++ b2) s t =
  match exec_lbody b1 s t with
  | (Returned, s1, t1, o1) => (Returned, s1, t1, o1)
  | (Normal, s1, t1, o1) =>
      let '(k, s2, t2, o2) := exec_lbody b2 s1 t1 in (k, s2, t2, o1 ++ o2)
  end.
Proof.
  revert s t. induction b1 as [|st b1 IH]; intros s t; simpl.
  - destruct (exec_lbody b2 s t) as [[[k s2] t2] o2]. reflexivity.
  - destruct (exec_lstmt st s t) as [[[k1 s1] t1] o1].
    destruct k1; [|reflexivity].
    rewrite IH. destruct (exec_lbody b1 s1 t1) as [[[k s3] t3] o3].
    destruct k; [|reflexivity].
    destruct (exec_lbody b2 s3 t3) as [[[k4 s4] t4] o4].
    rewrite app_assoc. reflexivity.
Qed.

(** The comparison helpers return [m_success], not the outcome of their
    own comparison: once any comparison of the test has failed (even one
    whose result was not asserted), the next [UTEST_ASSERT] on a helper
    returns from the body, even when its own operands compare as
    required. *)
Theorem Legacy_assert_after_failure pre k fails l r post s t s1 t1 out1 :
  exec_lbody pre s t = (Normal, s1, t1, out1) -> m_success t1 = false ->
  exists t2 out2,
    exec_lbody (pre ++ LAssertCompare k fails l r :: post) s t =
      (Returned, s1, t2, out1 ++ out2) /\
    m_success t2 = false /\ m_assert_count t2 = u64_wrap (m_assert_count t1 + 1).
Proof.
  intros Hp Hf. rewrite exec_lbody_app, Hp. simpl. unfold Compare.
  destruct (fails s1); simpl.
  - eexists _, _. split; [reflexivity|]. auto.
  - rewrite Hf. simpl. eexists _, _. split; [reflexivity|]. auto.
Qed.

End Legacy_props.

Lemma substring_all (x : string) : substring 0 (String.length x) x = x.
Proof. induction x as [|a x IH]; simpl; congruence. Qed.

Lemma length_str_app (x y : string) :
  String.length (x ++ y) = (String.length x + String.length y)%nat.
Proof. induction x as [|a x IH]; simpl; congruence. Qed.

Lemma underscores_to_spaces_app (x y : string) :
  underscores_to_spaces (x ++ y) = (underscores_to_spaces x ++ underscores_to_spaces y)%string.
Proof. induction x as [|a x IH]; simpl; congruence. Qed.

Lemma ends_in_word_snoc (x : string) (a : ascii) :
  ends_in_word (x ++ String a EmptyString) = negb (Ascii.eqb a "_"%char).
Proof.
  induction x as [|d x IH]; [reflexivity|].
  destruct x as [|e x]; [reflexivity|]. exact IH.
Qed.

Lemma text_of_map_Out_words (ws : list string) :
  text_of (map Out (map (fun w => Print (w ++ " ")%string) ws)) = words_text ws.
Proof.
  induction ws as [|w ws IH]; simpl; [reflexivity|].
  rewrite IH, str_app_assoc. reflexivity.
Qed.

(** The constructor of an older test prints the class name from
    [std::string(class_name, sizeof(#unit_name))], which includes the
    terminating NUL: every test's output starts with two spaces, the
    class name with its underscores as spaces, a NUL character, a space,
    then a backspace and ["...\n"]. *)
Theorem Legacy_unit_header {State : Type} unit_name (body : list (@lstmt State)) s :
  match run_unit unit_name body s with
  | (_, _, out) =>
      exists rest,
        text_of (map Out out) =
        ("  " ++ underscores_to_spaces unit_name ++ nul ++ " " ++ backspace ++ "..."
              ++ endl ++ rest)%string
  end.
Proof.
  unfold run_unit, UTestBase_ctor.
  replace (Z.to_nat (Z.of_nat (String.length unit_name) + 1))
    with (String.length (unit_name ++ nul)%string)
    by (rewrite length_str_app; simpl; lia).
  rewrite substring_all.
  destruct (exec_lbody body s UTestBase_new) as [[[k s'] t] out].
  exists (text_of (map Out (out ++ UTestBase_dtor t))).
  rewrite map_app, text_of_app. unfold PrintName.
  rewrite !map_app, !text_of_app, text_of_map_Out_words, name_words_text.
  unfold nul. rewrite ends_in_word_snoc, underscores_to_spaces_app. simpl.
  rewrite !str_app_assoc. reflexivity.
Qed.

End Legacy_props.

(** ** Witnesses of the further properties *)

Lemma FindContext_exact_witness :
  NoDup (map context_name (items (register_all empty_contexts interleaved_regs))) /\
  last_used (register_all empty_contexts interleaved_regs) = Some 1%nat /\
  (snd (FindContext (register_all empty_contexts interleaved_regs) "a.cpp") = Some 0%nat <->
   exists c, nth_error (items (register_all empty_contexts interleaved_regs)) 0 = Some c /\
             context_name c = "a.cpp"%string).
Proof.
  assert (H : NoDup (map context_name (items (register_all empty_contexts interleaved_regs))))
    by (vm_compute; repeat constructor; simpl; intuition discriminate).
  split; [exact H|]. split; [vm_compute; reflexivity|].
  apply FindContext_exact. exact H.
Defined.

Lemma RunNamed_all_contexts_witness :
  NoDup (map context_name (items (register_all empty_contexts interleaved_regs))) /\
  map context_name (items (register_all empty_contexts interleaved_regs)) =
    ["a.cpp"; "b.cpp"; "c.cpp"]%string /\
  match RunNamed (register_all empty_contexts interleaved_regs)
          (map context_name (items (register_all empty_contexts interleaved_regs))) 0%nat,
        Run (register_all empty_contexts interleaved_regs) 0%nat with
  | (code, _, s', tr), (code', s'', tr') => code = code' /\ s' = s'' /\ tr = tr'
  end.
Proof.
  assert (H : NoDup (map context_name (items (register_all empty_contexts interleaved_regs))))
    by (vm_compute; repeat constructor; simpl; intuition discriminate).
  split; [exact H|]. split; [vm_compute; reflexivity|].
  apply RunNamed_all_contexts. exact H.
Defined.

Lemma run_unit_result_witness :
  no_direct_calls
    [SAssert (fun n => Nat.eqb n 0) 10 (fun n => string_of_uint (Nat.to_uint n)) "=="
             (fun _ => "0"%string);
     SCode (fun n => (S n, [Print "step"%string]));
     SAssert (fun n => Nat.eqb n 0) 12 (fun n => string_of_uint (Nat.to_uint n)) "=="
             (fun _ => "0"%string);
     SReturn] = true /\
  match run_unit
    [SAssert (fun n => Nat.eqb n 0) 10 (fun n => string_of_uint (Nat.to_uint n)) "=="
             (fun _ => "0"%string);
     SCode (fun n => (S n, [Print "step"%string]));
     SAssert (fun n => Nat.eqb n 0) 12 (fun n => string_of_uint (Nat.to_uint n)) "=="
             (fun _ => "0"%string);
     SReturn] 0%nat with
  | (b, s', out) =>
      b = false <->
      exists pre cond line l op r post s1 t1 out1,
        [SAssert (fun n => Nat.eqb n 0) 10 (fun n => string_of_uint (Nat.to_uint n)) "=="
                 (fun _ => "0"%string);
         SCode (fun n => (S n, [Print "step"%string]));
         SAssert (fun n => Nat.eqb n 0) 12 (fun n => string_of_uint (Nat.to_uint n)) "=="
                 (fun _ => "0"%string);
         SReturn] = pre ++ SAssert cond line l op r :: post /\
        exec_body pre 0%nat UTestBase_new = (Normal, s1, t1, out1) /\
        cond s1 = false /\ s' = s1 /\
        out = out1 ++ [PrintDiag (u64_wrap (Z.of_nat (count_asserts pre) + 1))
                                 line (l s1) op (r s1)]
  end.
Proof.
  split; [reflexivity|]. apply run_unit_result. reflexivity.
Defined.

Lemma Legacy_RunNamed_unknown_names_witness :
  (forall nm c, In nm ["b.cpp"%string] ->
     In c (Legacy.items (Legacy.AddTest Legacy.empty_contexts pass_fn "a.cpp" false)) ->
     Legacy.context_name c <> nm) /\
  match Legacy.RunNamed (Legacy.AddTest Legacy.empty_contexts pass_fn "a.cpp" false)
          ["b.cpp"%string] 0%nat with
  | (code, cl', s', tr) =>
      code = 0 /\ s' = 0%nat /\ tr = [] /\
      Legacy.items cl' = Legacy.items (Legacy.AddTest Legacy.empty_contexts pass_fn "a.cpp" false)
  end.
Proof.
  assert (H : forall nm c, In nm ["b.cpp"%string] ->
     In c (Legacy.items (Legacy.AddTest Legacy.empty_contexts pass_fn "a.cpp" false)) ->
     Legacy.context_name c <> nm).
  { intros nm c [<-|[]] Hc. simpl in Hc. destruct Hc as [<-|[]]. simpl. discriminate. }
  split; [exact H|]. apply Legacy_props.Legacy_RunNamed_unknown_names. exact H.
Defined.

Lemma Legacy_plain_asserts_succeed_witness :
  Forall (fun st => match st with Legacy.LAssert _ | Legacy.LCode _ => True | _ => False end)
    [Legacy.LAssert (fun n => Nat.eqb n 1); Legacy.LCode (fun n => (S n, []))] /\
  fst (fst (Legacy.run_unit "plain_check"
              [Legacy.LAssert (fun n => Nat.eqb n 1); Legacy.LCode (fun n => (S n, []))]
              0%nat)) = true.
Proof.
  assert (H : Forall (fun st => match st with Legacy.LAssert _ | Legacy.LCode _ => True
                                         | _ => False end)
    [@Legacy.LAssert nat (fun n => Nat.eqb n 1); Legacy.LCode (fun n => (S n, []))])
    by (repeat constructor).
  split; [exact H|]. apply Legacy_props.Legacy_plain_asserts_succeed. exact H.
Defined.

Lemma Legacy_assert_after_failure_witness :
  Legacy.exec_lbody
    [Legacy.LCompare Legacy.Equal (fun _ => true) (fun _ => "1"%string) (fun _ => "2"%string)]
    0%nat UTestBase_new =
    (Normal, 0%nat, {| m_assert_count := 1; m_success := false |},
     [Print ("    >1: 1 == 2 is false" ++ endl)%string]) /\
  m_success {| m_assert_count := 1; m_success := false |} = false /\
  exists t2 out2,
    Legacy.exec_lbody
      ([Legacy.LCompare Legacy.Equal (fun _ => true) (fun _ => "1"%string)
                        (fun _ => "2"%string)]
       ++ Legacy.LAssertCompare Legacy.Equal (fun _ => false) (fun _ => "2"%string)
                                (fun _ => "2"%string)
       :: [Legacy.LCode (fun n : nat => (S n, []))])
      0%nat UTestBase_new =
      (Returned, 0%nat, t2, [Print ("    >1: 1 == 2 is false" ++ endl)%string] ++ out2) /\
    m_success t2 = false /\
    m_assert_count t2 = u64_wrap (m_assert_count {| m_assert_count := 1; m_success := false |} + 1).
Proof.
  split; [reflexivity|]. split; [reflexivity|].
  apply Legacy_props.Legacy_assert_after_failure; reflexivity.
Defined.
